(** * AST SpaceMobile telemetry: link budget, trajectory sampler, pass segmenter

    A shallow embedding of
    - [ast_spacemobile/core/config.py]        (signal constants, thresholds),
    - [ast_spacemobile/core/calculations.py]  (link budget and sampler),
    - [ast_spacemobile/analysis/passes.py]    (pass segmentation),
    - [ast_spacemobile/reports/generator.py]  (per-pass statistics),
    together with the properties the specification states about them.

    Numbers.  The Python code computes on binary64 floats; here they are
    idealised as real numbers [R]: [np.log10] is the real decimal logarithm
    and [round(x, n)] is rounding half to even at [n] decimals.  Not-a-number
    and infinities have no counterpart.  [np.mean] is a parameter, nothing
    being assumed of what it returns.  Instants ([datetime]) are integers
    counting microseconds from 0001-01-01 00:00:00, the first [datetime];
    the last one is 9999-12-31 23:59:59.999999, and sums that leave this
    range raise [OverflowError].  A [timedelta] of [n] seconds is
    [n * 1000000]. *)

From Stdlib Require Import Reals Lra ZArith Lia List Bool.
From Stdlib Require String Ascii DecimalString DecimalZ.
Import ListNotations.
Local Open Scope R_scope.

(** ** Library functions the code calls *)

Module Numeric.

(** [np.log10]. *)
Definition log10 (x : R) : R := ln x / ln 10.

(** Nearest integer, ties to the even neighbour. *)
Definition round_half_even (x : R) : Z :=
  let f := Int_part x in
  let d := x - IZR f in
  if Rlt_dec d (1 / 2) then f
  else if Rlt_dec (1 / 2) d then (f + 1)%Z
  else if Z.even f then f else (f + 1)%Z.

(** Python's [round(x, ndigits)]. *)
Definition round (x : R) (ndigits : nat) : R :=
  IZR (round_half_even (x * 10 ^ ndigits)) / 10 ^ ndigits.

(** [x < y] and [x >= y] as Python evaluates them, to a boolean. *)
Definition ltb (x y : R) : bool := if Rlt_dec x y then true else false.
Definition geb (x y : R) : bool := if Rle_dec y x then true else false.
Definition gtb (x y : R) : bool := ltb y x.

End Numeric.

Import Numeric.

(** ** core/config.py *)

Record SignalParams := {
  frequency_ghz : R;
  satellite_eirp_dbw : R;
  receiver_gain_dbi : R;
  system_losses_db : R;
  noise_floor_dbm : R
}.

Definition SIGNAL_PARAMS : SignalParams := {|
  frequency_ghz := 2.0;
  satellite_eirp_dbw := 55;
  receiver_gain_dbi := 15;
  system_losses_db := 3;
  noise_floor_dbm := -110
|}.

Record QualityThresholds := {
  excellent : R;
  good : R;
  fair : R;
  poor : R
}.

Definition LINK_QUALITY_THRESHOLDS : QualityThresholds := {|
  excellent := 20;
  good := 15;
  fair := 10;
  poor := 5
|}.

(** ** core/calculations.py: the link budget *)

(** The values of the ["link_quality"] key: "Excellent", "Good", "Fair",
    "Poor", "Very Poor" and "No Signal". *)
Inductive LinkQuality :=
  | Excellent | Good | Fair | Poor | VeryPoor | NoSignal.

(** The dictionary [calculate_signal_strength] returns; [None] is Python's
    [None]. *)
Record SignalMetrics := {
  received_power_dbm : option R;
  snr_db : option R;
  link_quality : LinkQuality;
  path_loss_db : option R;
  atmospheric_loss_db : option R
}.

(** Lines 72-83: the link quality assessment, thresholds read from a
    table. *)
Definition assess_link_quality (thresholds : QualityThresholds) (snr : R)
  : LinkQuality :=
  if geb snr (excellent thresholds) then Excellent
  else if geb snr (good thresholds) then Good
  else if geb snr (fair thresholds) then Fair
  else if geb snr (poor thresholds) then Poor
  else VeryPoor.

Definition calculate_signal_strength (elevation_deg range_km azimuth_deg : R)
  : SignalMetrics :=
  if ltb elevation_deg 0 then
    {| received_power_dbm := None;
       snr_db := None;
       link_quality := NoSignal;
       path_loss_db := None;
       atmospheric_loss_db := None |}
  else
    let frequency_ghz := frequency_ghz SIGNAL_PARAMS in
    let satellite_eirp_dbw := satellite_eirp_dbw SIGNAL_PARAMS in
    let receiver_gain_dbi := receiver_gain_dbi SIGNAL_PARAMS in
    let system_losses_db := system_losses_db SIGNAL_PARAMS in
    let noise_floor_dbm := noise_floor_dbm SIGNAL_PARAMS in
    let frequency_mhz := frequency_ghz * 1000 in
    let fspl_db := 20 * log10 range_km + 20 * log10 frequency_mhz + 32.45 in
    let atm_loss_db :=
      if ltb elevation_deg 10 then 2.0 + (10 - elevation_deg) * 0.5
      else 2.0 in
    let total_path_loss_db := fspl_db + atm_loss_db + system_losses_db in
    let satellite_eirp_dbm := satellite_eirp_dbw + 30 in
    let received_power_dbm :=
      satellite_eirp_dbm - total_path_loss_db + receiver_gain_dbi in
    let snr_db := received_power_dbm - noise_floor_dbm in
    let link_quality := assess_link_quality LINK_QUALITY_THRESHOLDS snr_db in
    {| received_power_dbm := Some (round received_power_dbm 2);
       snr_db := Some (round snr_db 2);
       link_quality := link_quality;
       path_loss_db := Some (round total_path_loss_db 2);
       atmospheric_loss_db := Some (round atm_loss_db 2) |}.

(** ** core/calculations.py: the trajectory sampler *)

(** What Skyfield yields for a fixed (satellite, observer) pair at the UTC
    instant [ts.utc(year, month, day, hour, minute, second)], given here as
    whole seconds: [(satellite - observer).at(t).altaz()] in degrees, degrees
    and kilometres, then [wgs84.latlon_of] and [wgs84.height_of] of
    [satellite.at(t)]. *)
Record Skyfield := {
  altaz : Z -> R * R * R;
  latlon_of : Z -> R * R;
  height_of : Z -> R
}.

(** One element of the list the sampler returns.  ["timestamp"] stands for
    both renderings of the tick ([isoformat()] and [timestamp()]); the five
    keys spliced in by [**signal_metrics] are kept as one field, no other key
    of the dictionary has their names. *)
Record Position := {
  timestamp : Z;
  elevation_deg : R;
  azimuth_deg : R;
  range_km : R;
  satellite_lat : R;
  satellite_lon : R;
  satellite_alt_km : R;
  visible : bool;
  signal_metrics : SignalMetrics
}.

Definition timedelta (seconds : Z) : Z := (seconds * 1000000)%Z.

(** [datetime.max], 9999-12-31 23:59:59.999999; [datetime.min] is 0. *)
Definition datetime_max : Z := 315537897599999999%Z.

Definition is_datetime (t : Z) : bool :=
  ((0 <=? t) && (t <=? datetime_max))%Z.

(** [timedelta(seconds=n)] exists when its days have a magnitude of at most
    999999999. *)
Definition timedelta_exists (seconds : Z) : bool :=
  ((-999999999 <=? seconds / 86400) && (seconds / 86400 <=? 999999999))%Z.

(** Line 159, [current_time += timedelta(seconds=interval_seconds)]; [None]
    stands for the [OverflowError] of a [timedelta] that does not exist or
    of a sum that is not a [datetime]. *)
Definition advance (current_time interval_seconds : Z) : option Z :=
  if timedelta_exists interval_seconds &&
     is_datetime (current_time + timedelta interval_seconds)
  then Some (current_time + timedelta interval_seconds)%Z
  else None.

(** The calendar fields down to [second]: the microsecond part is dropped. *)
Definition utc (current_time : Z) : Z := (current_time / 1000000)%Z.

(** Lines 122-156: the body of the loop, up to the [append]. *)
Definition position_data (sky : Skyfield) (current_time : Z) : Position :=
  let t := utc current_time in
  let '(alt, az, distance) := altaz sky t in
  let '(lat, lon) := latlon_of sky t in
  let height := height_of sky t in
  let signal_metrics := calculate_signal_strength alt distance az in
  {| timestamp := current_time;
     elevation_deg := round alt 2;
     azimuth_deg := round az 2;
     range_km := round distance 2;
     satellite_lat := round lat 4;
     satellite_lon := round lon 4;
     satellite_alt_km := round height 2;
     visible := gtb alt 0;
     signal_metrics := signal_metrics |}.

(** The exceptions of the statements modelled. *)
Inductive Exception := TypeError | OverflowError.

(** The state of a [while] loop observed after a bounded number of
    iterations: it has left the loop with a value, or it is still iterating
    and holds the value accumulated so far, or an exception has ended it,
    the value accumulated until then being lost to the caller. *)
Inductive Run (A : Type) :=
  | Returned (a : A)
  | Looping (a : A)
  | Raised (e : Exception) (a : A).
Arguments Returned {A} a.
Arguments Looping {A} a.
Arguments Raised {A} e a.

(** Lines 121-161: [while current_time <= end_time], at most [fuel] tests of
    the condition. *)
Fixpoint sampling_loop (fuel : nat) (sky : Skyfield)
    (current_time end_time interval_seconds : Z) (positions : list Position)
  : Run (list Position) :=
  match fuel with
  | O => Looping positions
  | S fuel' =>
      if (current_time <=? end_time)%Z then
        let positions := positions ++ [position_data sky current_time] in
        match advance current_time interval_seconds with
        | Some next_time =>
            sampling_loop fuel' sky next_time end_time interval_seconds
              positions
        | None => Raised OverflowError positions
        end
      else Returned positions
  end.

Definition generate_satellite_passes (fuel : nat) (sky : Skyfield)
    (start_time end_time interval_seconds : Z) : Run (list Position) :=
  sampling_loop fuel sky start_time end_time interval_seconds [].

(** ** analysis/passes.py: the pass segmenter *)

(** The three local variables of [identify_passes]. *)
Record Scan := {
  passes : list (list Position);
  in_pass : bool;
  current_pass : list Position
}.

(** One iteration of [for pos in positions]. *)
Definition scan_step (st : Scan) (pos : Position) : Scan :=
  if visible pos && negb (in_pass st) then
    {| passes := passes st; in_pass := true; current_pass := [pos] |}
  else if visible pos && in_pass st then
    {| passes := passes st; in_pass := true;
       current_pass := current_pass st ++ [pos] |}
  else if negb (visible pos) && in_pass st then
    {| passes :=
         if (0 <? length (current_pass st))%nat
         then passes st ++ [current_pass st] else passes st;
       in_pass := false;
       current_pass := [] |}
  else st.

Definition identify_passes (positions : list Position)
  : list (list Position) :=
  let st :=
    fold_left scan_step positions
      {| passes := []; in_pass := false; current_pass := [] |} in
  if in_pass st && (0 <? length (current_pass st))%nat
  then passes st ++ [current_pass st]
  else passes st.

(** ** reports/generator.py: per-pass statistics *)

(** Lines 507 and 542. *)
Definition duration_secs (pass_data : list Position) : Z :=
  (Z.of_nat (length pass_data) * 5)%Z.

(** Python's [max] over a list of floats; [None] stands for the exception it
    raises on an empty list or on a [None] among the values. *)
Fixpoint max_from (best : R) (values : list (option R)) : option R :=
  match values with
  | [] => Some best
  | Some v :: rest => max_from (if gtb v best then v else best) rest
  | None :: _ => None
  end.

Definition max (values : list (option R)) : option R :=
  match values with
  | Some v :: rest => max_from v rest
  | _ => None
  end.

(** Lines 555-556. *)
Definition peak_snr (pass_data : list Position) : option R :=
  max (map (fun p => snr_db (signal_metrics p)) pass_data).

(** Lines 559-569: "Determine link quality at peak". *)
Definition quality_at_peak (peak_snr : R) : LinkQuality :=
  if geb peak_snr 20 then Excellent
  else if geb peak_snr 15 then Good
  else if geb peak_snr 10 then Fair
  else if geb peak_snr 5 then Poor
  else VeryPoor.

(** The duration and the "Link Quality at Peak" row of one pass of
    [_generate_detailed_pass_section]. *)
Definition pass_details (pass_data : list Position)
  : option (Z * LinkQuality) :=
  match peak_snr pass_data with
  | Some peak => Some (duration_secs pass_data, quality_at_peak peak)
  | None => None
  end.

(** ** Notions the specification is stated with *)

(** The order of the qualities, [Excellent > Good > Fair > Poor > VeryPoor];
    [NoSignal] lies below all of them. *)
Definition quality_rank (q : LinkQuality) : nat :=
  match q with
  | Excellent => 5
  | Good => 4
  | Fair => 3
  | Poor => 2
  | VeryPoor => 1
  | NoSignal => 0
  end.

(** A metrics record with none of its four numbers, and one with all. *)
Definition all_absent (m : SignalMetrics) : Prop :=
  received_power_dbm m = None /\ snr_db m = None /\
  path_loss_db m = None /\ atmospheric_loss_db m = None /\
  link_quality m = NoSignal.

Definition all_populated (m : SignalMetrics) : Prop :=
  received_power_dbm m <> None /\ snr_db m <> None /\
  path_loss_db m <> None /\ atmospheric_loss_db m <> None /\
  link_quality m <> NoSignal.

(** Free-space path loss and atmospheric loss as the specification writes
    them. *)
Definition FSPL_dB (range_km frequency_MHz : R) : R :=
  20 * log10 range_km + 20 * log10 frequency_MHz + 32.45.

Definition atm_loss (elevation_deg : R) : R :=
  if Rle_dec 10 elevation_deg then 2.0
  else 2.0 + (10 - elevation_deg) * 0.5.

Definition shown (p : Position) : Prop := visible p = true.
Definition hidden (p : Position) : Prop := visible p = false.

(** [maximal_runs l ps]: [ps] lists, in the order of [l], the runs of visible
    samples of [l] that cannot be extended: each is non-empty, and is followed
    by a hidden sample or by the end of [l]. *)
Inductive maximal_runs : list Position -> list (list Position) -> Prop :=
  | runs_nil : maximal_runs [] []
  | runs_hidden pos rest ps :
      hidden pos -> maximal_runs rest ps -> maximal_runs (pos :: rest) ps
  | runs_open run :
      run <> [] -> Forall shown run -> maximal_runs run [run]
  | runs_closed run pos rest ps :
      run <> [] -> Forall shown run -> hidden pos ->
      maximal_runs rest ps ->
      maximal_runs (run ++ pos :: rest) (run :: ps).

(** The scan as a recursion on the input, [run] being the pass under
    construction (empty outside a pass). *)
Fixpoint runs_from (run : list Position) (l : list Position)
  : list (list Position) :=
  match l with
  | [] => match run with [] => [] | _ => [run] end
  | pos :: rest =>
      if visible pos then runs_from (run ++ [pos]) rest
      else match run with
           | [] => runs_from [] rest
           | _ => run :: runs_from [] rest
           end
  end.

(** The first [n] ticks from [start], [step] apart. *)
Definition ticks (start step : Z) (n : nat) : list Z :=
  map (fun k => (start + Z.of_nat k * step)%Z) (seq 0 n).

(** How many ticks [start, start + step, ...] do not exceed [stop]. *)
Definition tick_count (start stop step : Z) : nat :=
  Z.to_nat ((stop - start) / step + 1).

(** A satellite that does not move in the observer's sky. *)
Definition steady_sky (alt az distance : R) : Skyfield :=
  {| altaz := fun _ => (alt, az, distance);
     latlon_of := fun _ => (0, 0);
     height_of := fun _ => 500 |}.

(** What [identify_passes] does once its loop is over (lines 37-41). *)
Definition finish (st : Scan) : list (list Position) :=
  if in_pass st && (0 <? length (current_pass st))%nat
  then passes st ++ [current_pass st]
  else passes st.

(** The list [snr_values] of the report code. *)
Definition snr_values (pass_data : list Position) : list (option R) :=
  map (fun p => snr_db (signal_metrics p)) pass_data.

(** A sample as the sampler builds it: visible only with an SNR. *)
Definition sampled (p : Position) : Prop :=
  visible p = true -> snr_db (signal_metrics p) <> None.

(** ** Notions used for the further properties *)

(** Both numbers are present and the first does not exceed the second. *)
Definition option_le (a b : option R) : Prop :=
  match a, b with
  | Some x, Some y => x <= y
  | _, _ => False
  end.

(** [m'] reports at least the power, SNR and quality of [m], and at most its
    path loss. *)
Definition at_least_as_good (m m' : SignalMetrics) : Prop :=
  option_le (received_power_dbm m) (received_power_dbm m') /\
  option_le (snr_db m) (snr_db m') /\
  option_le (path_loss_db m') (path_loss_db m) /\
  (quality_rank (link_quality m) <= quality_rank (link_quality m'))%nat.

(** A sample with its tick moved by [offset] microseconds, the computed
    values unchanged. *)
Definition shift_timestamp (offset : Z) (p : Position) : Position :=
  {| timestamp := (timestamp p + offset)%Z;
     elevation_deg := elevation_deg p;
     azimuth_deg := azimuth_deg p;
     range_km := range_km p;
     satellite_lat := satellite_lat p;
     satellite_lon := satellite_lon p;
     satellite_alt_km := satellite_alt_km p;
     visible := visible p;
     signal_metrics := signal_metrics p |}.

Definition map_run {A B : Type} (f : A -> B) (r : Run A) : Run B :=
  match r with
  | Returned a => Returned (f a)
  | Looping a => Looping (f a)
  | Raised e a => Raised e (f a)
  end.

(** ** analysis/visualization.py *)

(** [utc_to_cst]: the instant six hours earlier ([fromisoformat] reads back
    what [isoformat] wrote). *)
Definition utc_to_cst (utc_time : Z) : Z :=
  (utc_time - 6 * 3600 * 1000000)%Z.

(** [start_time] and [end_time] of a pass in the report (lines 505-506 and
    540-541): its first and last samples, [pass_data[0]] and [pass_data[-1]];
    [None] stands for the [IndexError] on an empty pass. *)
Definition pass_window (pass_data : list Position) : option (Z * Z) :=
  match pass_data with
  | [] => None
  | first :: _ =>
      Some (utc_to_cst (timestamp first),
            utc_to_cst (timestamp (last pass_data first)))
  end.

(** ** reports/generator.py: the statistics of the trajectory report *)

(** The values of a list comprehension over floats that are never [None]. *)
Definition floats (values : list R) : list (option R) := map Some values.

(** [[p["received_power_dbm"] for p in visible_positions
      if p["received_power_dbm"] is not None]] (line 119). *)
Definition known_signal_powers (visible_positions : list Position) : list R :=
  flat_map
    (fun p =>
       match received_power_dbm (signal_metrics p) with
       | Some power => [power]
       | None => []
       end)
    visible_positions.

(** The five statistics of lines 110-131; [np_mean] is [np.mean] on a list
    of floats. *)
Record Statistics := {
  avg_elevation_visible : option R;
  max_elevation_visible : option R;
  total_visible_time : R;
  avg_signal_power : option R;
  max_signal_power : option R
}.

Definition statistics (np_mean : list R -> R) (positions : list Position)
  : Statistics :=
  let visible_positions := filter visible positions in
  match visible_positions with
  | [] =>
      {| avg_elevation_visible := None;
         max_elevation_visible := None;
         total_visible_time := 0;
         avg_signal_power := None;
         max_signal_power := None |}
  | _ :: _ =>
      let signal_powers := known_signal_powers visible_positions in
      {| avg_elevation_visible :=
           Some (np_mean (map elevation_deg visible_positions));
         max_elevation_visible :=
           max (floats (map elevation_deg visible_positions));
         total_visible_time := INR (length visible_positions) * 5 / 60;
         avg_signal_power :=
           match signal_powers with
           | [] => None
           | _ :: _ => Some (np_mean signal_powers)
           end;
         max_signal_power :=
           match signal_powers with
           | [] => None
           | _ :: _ => max (floats signal_powers)
           end |}
  end.

(** Truth value of an optional float: [None] and [0.0] are false. *)
Definition truthy (x : option R) : bool :=
  match x with
  | Some v => if Req_dec_T v 0 then false else true
  | None => false
  end.

Inductive HorizonNote := AboveHorizon | BelowHorizon.

(** What the statistics block of a report section shows (lines 151-164):
    a number where the f-string formats one, [None] where it prints "N/A". *)
Record SectionStatistics := {
  total_data_points : nat;
  shown_visible_time : R;
  shown_max_elevation : R;
  horizon_note : HorizonNote;
  shown_avg_elevation : option R;
  shown_avg_signal_power : option R;
  shown_peak_signal_power : option R
}.

(** The replacement fields are evaluated in order; formatting [None] with
    [:.2f] raises [TypeError]. *)
Definition section_statistics (np_mean : list R -> R)
    (positions : list Position) : Exception + SectionStatistics :=
  let st := statistics np_mean positions in
  match max_elevation_visible st with
  | None => inl TypeError
  | Some max_elevation =>
      inr {| total_data_points := length positions;
             shown_visible_time := total_visible_time st;
             shown_max_elevation := max_elevation;
             horizon_note :=
               if truthy (max_elevation_visible st) && gtb max_elevation 0
               then AboveHorizon else BelowHorizon;
             shown_avg_elevation :=
               if truthy (avg_elevation_visible st)
               then avg_elevation_visible st else None;
             shown_avg_signal_power :=
               if truthy (avg_signal_power st)
               then avg_signal_power st else None;
             shown_peak_signal_power :=
               if truthy (max_signal_power st)
               then max_signal_power st else None |}
  end.

(** ** reports/generator.py: the statistics of one pass (lines 544-557) *)

(** Python's [min] over a list of floats, as [max] above. *)
Fixpoint min_from (best : R) (values : list (option R)) : option R :=
  match values with
  | [] => Some best
  | Some v :: rest => min_from (if ltb v best then v else best) rest
  | None :: _ => None
  end.

Definition min (values : list (option R)) : option R :=
  match values with
  | Some v :: rest => min_from v rest
  | _ => None
  end.

(** The floats of a list, or [None] when one entry is [None]. *)
Fixpoint all_floats (values : list (option R)) : option (list R) :=
  match values with
  | [] => Some []
  | Some v :: rest =>
      match all_floats rest with
      | Some vs => Some (v :: vs)
      | None => None
      end
  | None :: _ => None
  end.

(** [np.mean] of a list that may hold [None], on which it raises. *)
Definition mean_of (np_mean : list R -> R) (values : list (option R))
  : option R :=
  match all_floats values with
  | Some vs => Some (np_mean vs)
  | None => None
  end.

Record PassStatistics := {
  max_elevation : R;
  min_elevation : R;
  max_signal : R;
  min_signal : R;
  avg_signal : R;
  min_range : R;
  max_range : R;
  peak_snr_db : R;
  avg_snr : R
}.

(** [None] when one of the statements raises. *)
Definition pass_statistics (np_mean : list R -> R)
    (pass_data : list Position) : option PassStatistics :=
  let elevations := floats (map elevation_deg pass_data) in
  let signal_powers :=
    map (fun p => received_power_dbm (signal_metrics p)) pass_data in
  let ranges := floats (map range_km pass_data) in
  let snrs := snr_values pass_data in
  match max elevations, min elevations,
        max signal_powers, min signal_powers, mean_of np_mean signal_powers,
        min ranges, max ranges, max snrs, mean_of np_mean snrs with
  | Some max_elevation, Some min_elevation,
    Some max_signal, Some min_signal, Some avg_signal,
    Some min_range, Some max_range, Some peak_snr, Some avg_snr =>
      Some {| max_elevation := max_elevation;
              min_elevation := min_elevation;
              max_signal := max_signal;
              min_signal := min_signal;
              avg_signal := avg_signal;
              min_range := min_range;
              max_range := max_range;
              peak_snr_db := peak_snr;
              avg_snr := avg_snr |}
  | _, _, _, _, _, _, _, _, _ => None
  end.

(** The seconds of all passes together. *)
Definition total_duration_secs (passes : list (list Position)) : Z :=
  fold_right Z.add 0%Z (map duration_secs passes).

(** ** Text: analysis/visualization.py, core/tle.py and the TLE choice of
    reports/generator.py *)

Module Text.

Import Ascii String.
Local Open Scope string_scope.
Local Open Scope Z_scope.

(** [str(n)] of an [int]. *)
Definition str (n : Z) : string :=
  DecimalString.NilZero.string_of_int (Z.to_int n).

Fixpoint spaces (n : nat) : string :=
  match n with
  | O => ""
  | S n' => String " " (spaces n')
  end.

(** The format specification [5d]: right-aligned in at least 5 columns. *)
Definition format_5d (n : Z) : string :=
  let s := str n in spaces (5 - length s) ++ s.

(** The format specification [02d]: a sign-aware zero padding to 2 columns
    only ever adds one zero in front of a single digit. *)
Definition format_02d (n : Z) : string :=
  let s := str n in if (length s <? 2)%nat then "0" ++ s else s.

(** visualization.py, lines 20-24. *)
Definition format_duration (seconds : Z) : string :=
  let mins := seconds / 60 in
  let secs := seconds mod 60 in
  format_02d mins ++ ":" ++ format_02d secs.

(** tle.py, lines 54-67. *)
Definition create_simulated_tle (norad_id : Z) (satellite_name : string)
  : string * string * string :=
  let line1 :=
    "1 " ++ format_5d norad_id ++
    "U 22059A   25341.50000000  .00000000  00000-0  00000-0 0  9999" in
  let line2 :=
    "2 " ++ format_5d norad_id ++
    "  53.0000  95.0000 0001000  90.0000 270.0000 15.00000000000000" in
  (satellite_name, line1, line2).

(** The characters [str.strip()] removes, among the first 256 code
    points. *)
Definition is_space (c : ascii) : bool :=
  let n := nat_of_ascii c in
  ((9 <=? n) && (n <=? 13) || (28 <=? n) && (n <=? 32) ||
   (n =? 133) || (n =? 160))%nat.

Fixpoint lstrip (s : string) : string :=
  match s with
  | "" => ""
  | String c rest => if is_space c then lstrip rest else s
  end.

Fixpoint rstrip (s : string) : string :=
  match s with
  | "" => ""
  | String c rest =>
      match rstrip rest with
      | "" => if is_space c then "" else String c ""
      | kept => String c kept
      end
  end.

Definition strip (s : string) : string := rstrip (lstrip s).

(** [s.split("\n")]. *)
Fixpoint split_lines (s : string) : list string :=
  match s with
  | "" => [""]
  | String c rest =>
      match split_lines rest with
      | line :: lines =>
          if (nat_of_ascii c =? 10)%nat then "" :: line :: lines
          else String c line :: lines
      | [] => []
      end
  end.

(** [needle in hay]. *)
Fixpoint contains (needle hay : string) : bool :=
  if prefix needle hay then true
  else match hay with
       | "" => false
       | String _ rest => contains needle rest
       end.

(** What [requests.get(url, timeout=timeout)] does: it raises, or it gives
    a response. *)
Inductive Http :=
  | Raises
  | Response (status_code : Z) (text : string).

(** Lines 27-30. *)
Definition first_three (lines : list string)
  : option (string * string * string) :=
  match lines with
  | a :: b :: c :: _ => Some (strip a, strip b, strip c)
  | _ => None
  end.

(** Lines 38-45: the groups of three lines at [i = 0, 3, 6, ...] with
    [i + 2 < len(lines)]. *)
Fixpoint scan_groups (needle : string) (lines : list string)
  : option (string * string * string) :=
  match lines with
  | a :: b :: c :: rest =>
      if contains needle b then Some (strip a, strip b, strip c)
      else scan_groups needle rest
  | _ => None
  end.

Definition some_triple (found : option (string * string * string))
  : option string * option string * option string :=
  match found with
  | Some (a, b, c) => (Some a, Some b, Some c)
  | None => (None, None, None)
  end.

(** tle.py, lines 11-51. *)
Definition fetch_tle_data (get : string -> Http) (norad_id : Z)
  : option string * option string * option string :=
  let url :=
    "https://celestrak.org/NORAD/elements/gp.php?CATNR=" ++ str norad_id ++
    "&FORMAT=TLE" in
  match get url with
  | Raises => (None, None, None)
  | Response status_code text =>
      match
        (if status_code =? 200 then first_three (split_lines (strip text))
         else None)
      with
      | Some found => some_triple (Some found)
      | None =>
          let url :=
            "https://celestrak.org/NORAD/elements/gp.php?GROUP=active&FORMAT=TLE"
          in
          match get url with
          | Raises => (None, None, None)
          | Response status_code text =>
              if status_code =? 200 then
                some_triple
                  (scan_groups (str norad_id) (split_lines (strip text)))
              else (None, None, None)
          end
      end
  end.

(** [not line]: [None] and the empty string are false. *)
Definition falsy (line : option string) : bool :=
  match line with
  | None => true
  | Some "" => true
  | Some _ => false
  end.

(** generator.py, lines 88-93: the TLE handed to [EarthSatellite]. *)
Definition tle_for_satellite (get : string -> Http) (norad_id : Z)
    (sat_name : string) : option string * option string * option string :=
  let '(name, line1, line2) := fetch_tle_data get norad_id in
  if falsy line1 || falsy line2 then
    let '(name, line1, line2) := create_simulated_tle norad_id sat_name in
    (Some name, Some line1, Some line2)
  else (name, line1, line2).

(** The two decimal digits of a number below 100. *)
Definition two_digits (n : Z) : string :=
  String (ascii_of_nat (48 + Z.to_nat (n / 10)))
    (String (ascii_of_nat (48 + Z.to_nat (n mod 10))) "").

(** [P] on the [n] integers from [z] on. *)
Fixpoint all_from (n : nat) (z : Z) (P : Z -> bool) : bool :=
  match n with
  | O => true
  | S n' => P z && all_from n' (z + 1) P
  end.

End Text.

(** ** reports/generator.py and the command lines: one run of the
    trajectory report *)

(** What the loop of lines 82-166 keeps for one satellite: its samples and
    the statistics of its section. *)
Definition SatelliteData : Type := list Position * SectionStatistics.

(** The loop over the satellites, each already built by [EarthSatellite];
    [None] when a sampling loop is still running after [fuel] iterations. *)
Fixpoint satellite_sections (np_mean : list R -> R) (fuel : nat)
    (satellites : list Skyfield) (start_date end_date : Z)
    (all_satellite_data : list SatelliteData)
  : option (Exception + list SatelliteData) :=
  match satellites with
  | [] => Some (inr all_satellite_data)
  | sky :: rest =>
      match generate_satellite_passes fuel sky start_date end_date 5 with
      | Looping _ => None
      | Raised e _ => Some (inl e)
      | Returned positions =>
          match section_statistics np_mean positions with
          | inl e => Some (inl e)
          | inr shown =>
              satellite_sections np_mean fuel rest start_date end_date
                (all_satellite_data ++ [(positions, shown)])
          end
      end
  end.

(** One day, in microseconds. *)
Definition day : Z := 86400000000.

Definition december_7_2025 : Z := 739591.

(** [timedelta.days]. *)
Definition days (delta : Z) : Z := (delta / day)%Z.

Record TrajectoryReport := {
  all_satellite_data : list SatelliteData;
  duration_days : Z
}.

(** [generate_trajectory_report] with both dates given: the loop, then
    [duration_days] (line 185). *)
Definition generate_trajectory_report (np_mean : list R -> R) (fuel : nat)
    (satellites : list Skyfield) (start_date end_date : Z)
  : option (Exception + TrajectoryReport) :=
  match
    satellite_sections np_mean fuel satellites start_date end_date []
  with
  | None => None
  | Some (inl e) => Some (inl e)
  | Some (inr data) =>
      Some (inr {| all_satellite_data := data;
                   duration_days := (days (end_date - start_date) + 1)%Z |})
  end.

(** How a command line ends: [sys.exit(status)], or its [main] returns. *)
Inductive CliResult (A : Type) :=
  | Exits (status : Z)
  | Completes (result : A).
Arguments Exits {A} status.
Arguments Completes {A} result.

(** cli/trajectory.py, lines 46-70.  [start] and [end] are what
    [datetime.strptime(_, "%Y-%m-%d")] makes of the two arguments: a day,
    counted in days, or [None] for the [ValueError] of a malformed date. *)
Definition trajectory_main (np_mean : list R -> R) (fuel : nat)
    (satellites : list Skyfield) (start end_ : option Z)
  : option (CliResult TrajectoryReport) :=
  match start, end_ with
  | Some start_day, Some end_day =>
      let start_date := (start_day * day)%Z in
      let end_date :=
        (end_day * day + timedelta (23 * 3600 + 59 * 60 + 59))%Z in
      if (end_date <? start_date)%Z then Some (Exits 1)
      else
        match
          generate_trajectory_report np_mean fuel satellites start_date
            end_date
        with
        | None => None
        | Some (inl _) => Some (Exits 1)
        | Some (inr report) => Some (Completes report)
        end
  | _, _ => Some (Exits 1)
  end.

(** cli/pipeline.py, lines 27-36, with the [ValueError] of a malformed
    date taken to where [main] ends the command with status 1 (lines
    174-177). *)
Definition validate_dates (start end_ : option Z) : CliResult (Z * Z) :=
  match start, end_ with
  | Some start_day, Some end_day =>
      let start_date := (start_day * day)%Z in
      let end_date := (end_day * day)%Z in
      if (end_date <? start_date)%Z then Exits 1
      else Completes (start_date, end_date)
  | _, _ => Exits 1
  end.


(** ** Facts on the library functions *)

Lemma ltb_true x y : x < y -> ltb x y = true.
Proof. intros H; unfold ltb; destruct (Rlt_dec x y); [reflexivity | lra]. Qed.

Lemma ltb_false x y : y <= x -> ltb x y = false.
Proof. intros H; unfold ltb; destruct (Rlt_dec x y); [lra | reflexivity]. Qed.

Lemma geb_true x y : y <= x -> geb x y = true.
Proof. intros H; unfold geb; destruct (Rle_dec y x); [reflexivity | lra]. Qed.

Lemma geb_false x y : x < y -> geb x y = false.
Proof. intros H; unfold geb; destruct (Rle_dec y x); [lra | reflexivity]. Qed.

Lemma gtb_true x y : y < x -> gtb x y = true.
Proof. apply ltb_true. Qed.

Lemma gtb_false x y : x <= y -> gtb x y = false.
Proof. apply ltb_false. Qed.

Lemma round_half_even_down x z :
  IZR z <= x < IZR z + 1 / 2 -> round_half_even x = z.
Proof.
  intros [Hlo Hhi]; unfold round_half_even.
  assert (E : Int_part x = z) by (symmetry; apply Int_part_spec; lra).
  rewrite E; destruct (Rlt_dec (x - IZR z) (1 / 2)); [reflexivity | lra].
Qed.

Lemma round_half_even_up x z :
  IZR z - 1 / 2 < x <= IZR z -> round_half_even x = z.
Proof.
  intros [Hlo Hhi]; unfold round_half_even.
  destruct (Req_dec x (IZR z)) as [-> | Hne].
  - assert (E : Int_part (IZR z) = z) by (symmetry; apply Int_part_spec; lra).
    rewrite E; destruct (Rlt_dec (IZR z - IZR z) (1 / 2)); [reflexivity | lra].
  - assert (E : Int_part x = (z - 1)%Z).
    { symmetry; apply Int_part_spec; rewrite minus_IZR; lra. }
    rewrite E, minus_IZR.
    destruct (Rlt_dec (x - (IZR z - 1)) (1 / 2)); [lra |].
    destruct (Rlt_dec (1 / 2) (x - (IZR z - 1))); [f_equal; lia | lra].
Qed.

Lemma ln_10_pos : 0 < ln 10.
Proof. rewrite <- ln_1; apply ln_increasing; lra. Qed.

Lemma log10_product x y n :
  0 < x -> 0 < y -> x * y = 10 ^ n -> log10 x + log10 y = INR n.
Proof.
  intros Hx Hy E; unfold log10.
  pose proof ln_10_pos as H10.
  replace (ln x / ln 10 + ln y / ln 10) with ((ln x + ln y) / ln 10)
    by (field; lra).
  rewrite <- ln_mult, E, ln_pow by lra.
  field; lra.
Qed.

(** ** The link budget *)

Lemma assess_link_quality_signal thresholds snr :
  assess_link_quality thresholds snr <> NoSignal.
Proof.
  unfold assess_link_quality.
  repeat match goal with |- context [geb ?a ?b] => destruct (geb a b) end;
    discriminate.
Qed.

Lemma calculate_below_horizon elevation_deg range_km azimuth_deg :
  elevation_deg < 0 ->
  calculate_signal_strength elevation_deg range_km azimuth_deg =
  {| received_power_dbm := None; snr_db := None; link_quality := NoSignal;
     path_loss_db := None; atmospheric_loss_db := None |}.
Proof.
  intros H; unfold calculate_signal_strength; now rewrite ltb_true.
Qed.

Lemma calculate_above_horizon elevation_deg range_km azimuth_deg :
  0 <= elevation_deg ->
  all_populated (calculate_signal_strength elevation_deg range_km azimuth_deg).
Proof.
  intros H; unfold calculate_signal_strength, all_populated.
  rewrite ltb_false by assumption; cbn.
  repeat split; try discriminate.
  apply assess_link_quality_signal.
Qed.

(** C1. Below the horizon the link budget returns the metrics with received
    power, SNR, path loss and atmospheric loss all [None] and the quality
    "No Signal"; from the horizon up all five are populated; no call yields a
    record with only some of them. *)
Theorem link_metrics_all_or_nothing :
  forall elevation_deg range_km azimuth_deg : R,
    let m := calculate_signal_strength elevation_deg range_km azimuth_deg in
    (elevation_deg < 0 ->
       m = {| received_power_dbm := None; snr_db := None;
              link_quality := NoSignal;
              path_loss_db := None; atmospheric_loss_db := None |}) /\
    (0 <= elevation_deg -> all_populated m) /\
    (all_absent m \/ all_populated m).
Proof.
  intros el rg az m; subst m; split; [| split].
  - apply calculate_below_horizon.
  - apply calculate_above_horizon.
  - destruct (Rlt_le_dec el 0) as [Hlt | Hge].
    + left; rewrite calculate_below_horizon by assumption.
      unfold all_absent; cbn; repeat split.
    + right; now apply calculate_above_horizon.
Qed.

Lemma link_metrics_all_or_nothing_witness :
  received_power_dbm (calculate_signal_strength (-1) 600 180) = None /\
  all_populated (calculate_signal_strength 45 600 180).
Proof.
  destruct (link_metrics_all_or_nothing (-1) 600 180) as [Hneg _].
  destruct (link_metrics_all_or_nothing 45 600 180) as [_ [Hpos _]].
  split.
  - rewrite Hneg by lra; reflexivity.
  - apply Hpos; lra.
Defined.

(** C9. The metrics do not depend on the azimuth argument. *)
Theorem azimuth_is_ignored :
  forall elevation_deg range_km azimuth_deg azimuth_deg' : R,
    calculate_signal_strength elevation_deg range_km azimuth_deg =
    calculate_signal_strength elevation_deg range_km azimuth_deg'.
Proof. intros; reflexivity. Qed.

Lemma assess_default snr :
  assess_link_quality LINK_QUALITY_THRESHOLDS snr =
  if geb snr 20 then Excellent
  else if geb snr 15 then Good
  else if geb snr 10 then Fair
  else if geb snr 5 then Poor
  else VeryPoor.
Proof. reflexivity. Qed.

Ltac settle_thresholds :=
  repeat match goal with
    | |- context [geb ?a ?b] =>
        first [ rewrite (geb_true a b) by lra
              | rewrite (geb_false a b) by lra ]
    end.

Lemma assess_bands snr :
  let q := assess_link_quality LINK_QUALITY_THRESHOLDS snr in
  (20 <= snr -> q = Excellent) /\
  (15 <= snr < 20 -> q = Good) /\
  (10 <= snr < 15 -> q = Fair) /\
  (5 <= snr < 10 -> q = Poor) /\
  (snr < 5 -> q = VeryPoor).
Proof.
  cbv zeta; rewrite assess_default.
  split; [| split; [| split; [| split]]];
    intros H; settle_thresholds; reflexivity.
Qed.

Lemma assess_monotone snr snr' :
  snr' <= snr ->
  (quality_rank (assess_link_quality LINK_QUALITY_THRESHOLDS snr') <=
   quality_rank (assess_link_quality LINK_QUALITY_THRESHOLDS snr))%nat.
Proof.
  intros H; rewrite !assess_default.
  destruct (Rle_dec 20 snr'); [settle_thresholds; cbn; lia |].
  destruct (Rle_dec 15 snr').
  { destruct (Rle_dec 20 snr); settle_thresholds; cbn; lia. }
  destruct (Rle_dec 10 snr').
  { destruct (Rle_dec 20 snr); [settle_thresholds; cbn; lia |].
    destruct (Rle_dec 15 snr); settle_thresholds; cbn; lia. }
  destruct (Rle_dec 5 snr').
  { destruct (Rle_dec 20 snr); [settle_thresholds; cbn; lia |].
    destruct (Rle_dec 15 snr); [settle_thresholds; cbn; lia |].
    destruct (Rle_dec 10 snr); settle_thresholds; cbn; lia. }
  destruct (Rle_dec 20 snr); [settle_thresholds; cbn; lia |].
  destruct (Rle_dec 15 snr); [settle_thresholds; cbn; lia |].
  destruct (Rle_dec 10 snr); [settle_thresholds; cbn; lia |].
  destruct (Rle_dec 5 snr); settle_thresholds; cbn; lia.
Qed.

(** C6. The quality is a step function of the SNR: the thresholds 20, 15, 10
    and 5 are tried from the highest down and the first one reached decides;
    the quality never rises when the SNR falls, in the order
    Excellent > Good > Fair > Poor > VeryPoor; and 25, 20, 17, 12, 7, 2 give
    Excellent, Excellent, Good, Fair, Poor, VeryPoor. *)
Theorem link_quality_step_function :
  let quality := assess_link_quality LINK_QUALITY_THRESHOLDS in
  (forall snr,
     (20 <= snr -> quality snr = Excellent) /\
     (15 <= snr < 20 -> quality snr = Good) /\
     (10 <= snr < 15 -> quality snr = Fair) /\
     (5 <= snr < 10 -> quality snr = Poor) /\
     (snr < 5 -> quality snr = VeryPoor)) /\
  (forall snr snr',
     snr' <= snr ->
     (quality_rank (quality snr') <= quality_rank (quality snr))%nat) /\
  map quality [25; 20; 17; 12; 7; 2] =
    [Excellent; Excellent; Good; Fair; Poor; VeryPoor].
Proof.
  cbv zeta; split; [| split].
  - apply assess_bands.
  - apply assess_monotone.
  - cbn [map]; rewrite !assess_default; settle_thresholds; reflexivity.
Qed.

Lemma link_quality_step_function_witness :
  assess_link_quality LINK_QUALITY_THRESHOLDS 17.5 = Good /\
  (quality_rank (assess_link_quality LINK_QUALITY_THRESHOLDS 7) <=
   quality_rank (assess_link_quality LINK_QUALITY_THRESHOLDS 12))%nat.
Proof.
  destruct link_quality_step_function as [Hbands [Hmono _]].
  split.
  - apply (Hbands 17.5); lra.
  - apply (Hmono 12 7); lra.
Defined.

Lemma path_loss_above_horizon elevation_deg range_km azimuth_deg :
  0 <= elevation_deg ->
  path_loss_db
    (calculate_signal_strength elevation_deg range_km azimuth_deg) =
  Some (round (FSPL_dB range_km 2000 + atm_loss elevation_deg + 3) 2).
Proof.
  intros H; unfold calculate_signal_strength, FSPL_dB, atm_loss.
  rewrite ltb_false by assumption; cbn.
  replace (2.0 * 1000) with 2000 by lra.
  unfold ltb; destruct (Rlt_dec elevation_deg 10), (Rle_dec 10 elevation_deg);
    try lra; reflexivity.
Qed.

Lemma atmospheric_loss_above_horizon elevation_deg range_km azimuth_deg :
  0 <= elevation_deg ->
  atmospheric_loss_db
    (calculate_signal_strength elevation_deg range_km azimuth_deg) =
  Some (round (atm_loss elevation_deg) 2).
Proof.
  intros H; unfold calculate_signal_strength, atm_loss.
  rewrite ltb_false by assumption; cbn.
  unfold ltb; destruct (Rlt_dec elevation_deg 10), (Rle_dec 10 elevation_deg);
    try lra; reflexivity.
Qed.

(** C5, as the code has it. From the horizon up and for a positive range, the
    path loss of the code is the free-space loss at 2000 MHz plus the
    atmospheric loss (2.0 dB from 10 degrees up, 2.0 + (10 - elevation) x 0.5
    below) plus the 3 dB of system losses; the reported [path_loss_db] is
    that sum rounded to 2 decimals, and the reported atmospheric loss is
    rounded likewise. *)
Theorem path_loss_is_rounded_sum :
  forall elevation_deg range_km azimuth_deg : R,
    0 <= elevation_deg -> 0 < range_km ->
    let m := calculate_signal_strength elevation_deg range_km azimuth_deg in
    path_loss_db m =
      Some (round (FSPL_dB range_km 2000 + atm_loss elevation_deg + 3) 2) /\
    atmospheric_loss_db m = Some (round (atm_loss elevation_deg) 2) /\
    (10 <= elevation_deg -> atm_loss elevation_deg = 2.0) /\
    (elevation_deg < 10 ->
       atm_loss elevation_deg = 2.0 + (10 - elevation_deg) * 0.5).
Proof.
  intros el rg az Hel Hrg m; subst m.
  split; [now apply path_loss_above_horizon |].
  split; [now apply atmospheric_loss_above_horizon |].
  unfold atm_loss; split; intros H; destruct (Rle_dec 10 el); lra.
Qed.

Lemma path_loss_is_rounded_sum_witness :
  path_loss_db (calculate_signal_strength 45 600 180) =
  Some (round (FSPL_dB 600 2000 + atm_loss 45 + 3) 2).
Proof.
  apply (path_loss_is_rounded_sum 45 600 180); lra.
Defined.

Lemma FSPL_dB_500 : FSPL_dB 500 2000 = 152.45.
Proof.
  unfold FSPL_dB.
  assert (E : log10 500 + log10 2000 = INR 6)
    by (apply log10_product; simpl; lra).
  simpl in E; lra.
Qed.

Lemma exact_sum_500 : FSPL_dB 500 2000 + atm_loss 5.001 + 3 = 159.9495.
Proof.
  rewrite FSPL_dB_500; unfold atm_loss.
  destruct (Rle_dec 10 5.001); lra.
Qed.

Lemma reported_path_loss_500 :
  path_loss_db (calculate_signal_strength 5.001 500 0) = Some 159.95.
Proof.
  rewrite path_loss_above_horizon, exact_sum_500 by lra.
  f_equal; unfold round.
  rewrite (round_half_even_up _ 15995) by (simpl; lra).
  simpl; lra.
Qed.

(** C5, as stated, fails: at 5.001 degrees and 500 km the exact sum is
    159.9495 dB and the reported path loss is 159.95 dB. *)
Lemma path_loss_exact_sum_fails :
  0 <= 5.001 /\ 0 < 500 /\
  FSPL_dB 500 2000 + atm_loss 5.001 + 3 = 159.9495 /\
  path_loss_db (calculate_signal_strength 5.001 500 0) = Some 159.95 /\
  path_loss_db (calculate_signal_strength 5.001 500 0) <>
    Some (FSPL_dB 500 2000 + atm_loss 5.001 + 3).
Proof.
  split; [lra |]; split; [lra |].
  split; [apply exact_sum_500 |].
  split; [apply reported_path_loss_500 |].
  rewrite reported_path_loss_500, exact_sum_500.
  intros E; injection E; lra.
Qed.

(** ** One sample *)

Lemma round_2_near_zero x : 0 < x < 0.005 -> round x 2 = 0.
Proof.
  intros H; unfold round.
  rewrite (round_half_even_down _ 0) by (simpl; lra).
  simpl; lra.
Qed.

Lemma position_data_fields sky current_time alt az distance :
  altaz sky (utc current_time) = (alt, az, distance) ->
  let p := position_data sky current_time in
  timestamp p = current_time /\
  elevation_deg p = round alt 2 /\
  visible p = gtb alt 0 /\
  signal_metrics p = calculate_signal_strength alt distance az.
Proof.
  intros E; unfold position_data; rewrite E.
  destruct (latlon_of sky (utc current_time)); cbn; auto.
Qed.

(** C4. A sample is visible exactly when its elevation is above 0, strictly,
    and carries "No Signal" exactly when its elevation is below 0; a sample
    taken at elevation 0 is therefore not visible and has all its link
    metrics. *)
Theorem horizon_cutoffs_differ :
  forall (sky : Skyfield) (current_time : Z) (alt az distance : R),
    altaz sky (utc current_time) = (alt, az, distance) ->
    let p := position_data sky current_time in
    (visible p = true <-> 0 < alt) /\
    (link_quality (signal_metrics p) = NoSignal <-> alt < 0) /\
    (alt = 0 -> visible p = false /\ all_populated (signal_metrics p)).
Proof.
  intros sky t alt az distance E p.
  destruct (position_data_fields sky t alt az distance E)
    as (_ & _ & Hvis & Hsig).
  fold p in Hvis, Hsig; rewrite Hvis, Hsig.
  split; [| split].
  - unfold gtb, ltb; destruct (Rlt_dec 0 alt); split; intros H;
      first [assumption | reflexivity | discriminate | lra].
  - split; intros H.
    + destruct (Rlt_le_dec alt 0) as [Hlt | Hge]; [assumption |].
      apply (calculate_above_horizon alt distance az) in Hge.
      now destruct Hge as (_ & _ & _ & _ & Hq).
    + now rewrite calculate_below_horizon.
  - intros ->; split; [apply gtb_false; lra |].
    apply calculate_above_horizon; lra.
Qed.

Lemma horizon_cutoffs_differ_witness :
  visible (position_data (steady_sky 0 180 600) 0) = false /\
  all_populated (signal_metrics (position_data (steady_sky 0 180 600) 0)).
Proof.
  destruct (horizon_cutoffs_differ (steady_sky 0 180 600) 0 0 180 600)
    as (_ & _ & H); [reflexivity |].
  apply H; reflexivity.
Defined.

(** C10. Visibility is decided on the elevation as propagated, the stored
    [elevation_deg] is that elevation rounded to 2 decimals; so a sample
    whose elevation lies strictly between 0 and 0.005 degrees is stored with
    [elevation_deg = 0.0] and [visible = true], and such samples exist. *)
Theorem visible_at_stored_zero_elevation :
  (forall (sky : Skyfield) (current_time : Z) (alt az distance : R),
     altaz sky (utc current_time) = (alt, az, distance) ->
     let p := position_data sky current_time in
     visible p = gtb alt 0 /\
     elevation_deg p = round alt 2 /\
     (0 < alt < 0.005 -> elevation_deg p = 0.0 /\ visible p = true)) /\
  (exists (sky : Skyfield) (current_time : Z),
     let p := position_data sky current_time in
     0 < fst (fst (altaz sky (utc current_time))) < 0.005 /\
     elevation_deg p = 0.0 /\ visible p = true).
Proof.
  assert (Hall : forall sky t alt az distance,
             altaz sky (utc t) = (alt, az, distance) ->
             visible (position_data sky t) = gtb alt 0 /\
             elevation_deg (position_data sky t) = round alt 2 /\
             (0 < alt < 0.005 ->
              elevation_deg (position_data sky t) = 0.0 /\
              visible (position_data sky t) = true)).
  { intros sky t alt az distance E.
    destruct (position_data_fields sky t alt az distance E)
      as (_ & Hel & Hvis & _).
    cbv zeta in Hel, Hvis; rewrite Hel, Hvis.
    split; [reflexivity |]; split; [reflexivity |].
    intros H; split; [rewrite round_2_near_zero by lra; lra |].
    apply gtb_true; lra. }
  split; [exact Hall |].
  exists (steady_sky 0.001 180 600), 0%Z; cbv zeta.
  split; [cbn; lra |].
  apply (Hall (steady_sky 0.001 180 600) 0%Z 0.001 180 600);
    [reflexivity | lra].
Qed.

Lemma visible_at_stored_zero_elevation_witness :
  elevation_deg (position_data (steady_sky 0.004 90 700) 0) = 0.0 /\
  visible (position_data (steady_sky 0.004 90 700) 0) = true.
Proof.
  destruct visible_at_stored_zero_elevation as [Hall _].
  apply (Hall (steady_sky 0.004 90 700) 0%Z 0.004 90 700); [reflexivity | lra].
Defined.

(** ** The pass segmenter *)

Lemma identify_passes_finish positions :
  identify_passes positions =
  finish (fold_left scan_step positions
            {| passes := []; in_pass := false; current_pass := [] |}).
Proof. reflexivity. Qed.

Lemma runs_from_nonempty_nil run : run <> [] -> runs_from run [] = [run].
Proof. destruct run; [congruence | reflexivity]. Qed.

Lemma runs_from_nonempty_hidden run pos rest :
  run <> [] -> visible pos = false ->
  runs_from run (pos :: rest) = run :: runs_from [] rest.
Proof. intros Hrun Hpos; cbn; rewrite Hpos; destruct run; congruence. Qed.

Lemma length_positive (run : list Position) :
  run <> [] -> (0 <? length run)%nat = true.
Proof. destruct run; [congruence | reflexivity]. Qed.

Lemma snoc_not_nil (run : list Position) pos : run ++ [pos] <> [].
Proof. destruct run; discriminate. Qed.

(** The loop of the code and the recursion [runs_from] agree, outside a pass
    and inside one. *)
Lemma scan_runs_from l :
  (forall ps stale,
     finish (fold_left scan_step l
               {| passes := ps; in_pass := false; current_pass := stale |}) =
     ps ++ runs_from [] l) /\
  (forall ps run,
     run <> [] ->
     finish (fold_left scan_step l
               {| passes := ps; in_pass := true; current_pass := run |}) =
     ps ++ runs_from run l).
Proof.
  induction l as [| pos rest [IHout IHin]]; split.
  - intros ps stale; cbn; now rewrite app_nil_r.
  - intros ps run Hrun; unfold finish.
    cbn [fold_left in_pass current_pass passes andb].
    now rewrite length_positive, runs_from_nonempty_nil.
  - intros ps stale; cbn [fold_left runs_from]; unfold scan_step.
    cbn [in_pass current_pass passes negb andb app].
    destruct (visible pos); cbn [andb].
    + apply IHin; discriminate.
    + apply IHout.
  - intros ps run Hrun; cbn [fold_left]; unfold scan_step.
    cbn [in_pass current_pass passes negb].
    destruct (visible pos) eqn:Hpos; cbn [andb negb].
    + cbn [runs_from]; rewrite Hpos; apply IHin, snoc_not_nil.
    + rewrite length_positive, IHout, runs_from_nonempty_hidden by assumption.
      now rewrite <- app_assoc.
Qed.

Lemma identify_passes_runs_from positions :
  identify_passes positions = runs_from [] positions.
Proof.
  rewrite identify_passes_finish.
  now rewrite (proj1 (scan_runs_from positions)).
Qed.

Lemma runs_from_shown l : forall run,
  Forall shown l -> run ++ l <> [] -> runs_from run l = [run ++ l].
Proof.
  induction l as [| pos rest IH]; intros run Hall Hne.
  - rewrite app_nil_r in *; now apply runs_from_nonempty_nil.
  - inversion Hall as [| ? ? Hpos Hrest]; subst; cbn.
    rewrite Hpos, IH; [now rewrite <- app_assoc | assumption |].
    rewrite <- app_assoc; exact Hne.
Qed.

Lemma runs_from_hidden l : Forall hidden l -> runs_from [] l = [].
Proof.
  induction 1 as [| pos rest Hpos _ IH]; [reflexivity |].
  cbn; now rewrite Hpos.
Qed.

Lemma runs_from_closed l : forall run pos rest,
  Forall shown l -> run ++ l <> [] -> hidden pos ->
  runs_from run (l ++ pos :: rest) = (run ++ l) :: runs_from [] rest.
Proof.
  induction l as [| q l IH]; intros run pos rest Hall Hne Hpos.
  - rewrite app_nil_r in *; now apply runs_from_nonempty_hidden.
  - inversion Hall as [| ? ? Hq Hl]; subst; cbn.
    rewrite Hq, IH; [now rewrite <- app_assoc | assumption | | assumption].
    rewrite <- app_assoc; exact Hne.
Qed.

Lemma runs_from_sound l :
  maximal_runs l (runs_from [] l) /\
  (forall run, run <> [] -> Forall shown run ->
     maximal_runs (run ++ l) (runs_from run l)).
Proof.
  induction l as [| pos rest [IHout IHin]]; split.
  - constructor.
  - intros run Hne Hall.
    rewrite app_nil_r, runs_from_nonempty_nil by assumption.
    now constructor.
  - cbn; destruct (visible pos) eqn:Hpos.
    + apply (IHin [pos]); [discriminate | now repeat constructor].
    + now constructor.
  - intros run Hne Hall; destruct (visible pos) eqn:Hpos.
    + cbn [runs_from]; rewrite Hpos.
      replace (run ++ pos :: rest) with ((run ++ [pos]) ++ rest)
        by now rewrite <- app_assoc.
      apply IHin; [apply snoc_not_nil |].
      apply Forall_app; split; [assumption | now repeat constructor].
    + rewrite runs_from_nonempty_hidden by assumption.
      now constructor.
Qed.

Lemma runs_from_complete l ps : maximal_runs l ps -> ps = runs_from [] l.
Proof.
  induction 1 as [| pos rest ps Hpos _ IH | run Hne Hall
                  | run pos rest ps Hne Hall Hpos _ IH].
  - reflexivity.
  - cbn; now rewrite Hpos.
  - now rewrite runs_from_shown.
  - rewrite runs_from_closed by assumption; now f_equal.
Qed.

Lemma maximal_runs_nonempty l ps :
  maximal_runs l ps -> forall run, In run ps -> run <> [].
Proof.
  induction 1 as [| pos rest ps Hpos _ IH | run Hne Hall
                  | run pos rest ps Hne Hall Hpos _ IH]; intros r Hin.
  - destruct Hin.
  - now apply IH.
  - destruct Hin as [<- | []]; assumption.
  - destruct Hin as [<- | Hin]; [assumption | now apply IH].
Qed.

Lemma filter_shown run : Forall shown run -> filter visible run = run.
Proof.
  induction 1 as [| pos rest Hpos _ IH]; [reflexivity |].
  cbn; now rewrite Hpos, IH.
Qed.

Lemma maximal_runs_concat l ps :
  maximal_runs l ps -> concat ps = filter visible l.
Proof.
  induction 1 as [| pos rest ps Hpos _ IH | run Hne Hall
                  | run pos rest ps Hne Hall Hpos _ IH].
  - reflexivity.
  - cbn; now rewrite Hpos.
  - cbn; now rewrite app_nil_r, filter_shown.
  - cbn; rewrite filter_app, filter_shown by assumption.
    cbn; now rewrite Hpos, IH.
Qed.

Lemma runs_from_open_end l : forall run tail,
  tail <> [] -> Forall shown tail ->
  exists ps head, runs_from run (l ++ tail) = ps ++ [head ++ tail].
Proof.
  induction l as [| pos rest IH]; intros run tail Hne Hall.
  - exists [], run; cbn; apply runs_from_shown; [assumption |].
    destruct run, tail; cbn; congruence.
  - cbn; destruct (visible pos).
    + apply IH; assumption.
    + destruct (IH [] tail Hne Hall) as (ps & head & E); rewrite E.
      destruct run as [| r run'].
      * now exists ps, head.
      * now exists ((r :: run') :: ps), head.
Qed.

(** C2. The segmenter returns exactly the maximal contiguous runs of visible
    samples, in input order: nothing for the empty list, the whole list as
    one pass for a non-empty list of visible samples, nothing when no sample
    is visible; every pass is non-empty; and a run of visible samples that
    reaches the end of the input is emitted as the last pass. *)
Theorem identify_passes_maximal_runs :
  (forall positions ps,
     maximal_runs positions ps <-> ps = identify_passes positions) /\
  (forall positions,
     concat (identify_passes positions) = filter visible positions) /\
  identify_passes [] = [] /\
  (forall positions,
     positions <> [] -> Forall shown positions ->
     identify_passes positions = [positions]) /\
  (forall positions,
     Forall hidden positions -> identify_passes positions = []) /\
  (forall positions run, In run (identify_passes positions) -> run <> []) /\
  (forall positions tail,
     tail <> [] -> Forall shown tail ->
     exists ps head,
       identify_passes (positions ++ tail) = ps ++ [head ++ tail]).
Proof.
  repeat match goal with |- _ /\ _ => split end.
  - intros positions ps; rewrite identify_passes_runs_from; split.
    + apply runs_from_complete.
    + intros ->; apply runs_from_sound.
  - intros positions; rewrite identify_passes_runs_from.
    apply maximal_runs_concat, runs_from_sound.
  - reflexivity.
  - intros positions Hne Hall; rewrite identify_passes_runs_from.
    now apply (runs_from_shown positions []).
  - intros positions Hall; rewrite identify_passes_runs_from.
    now apply runs_from_hidden.
  - intros positions run; rewrite identify_passes_runs_from.
    apply (maximal_runs_nonempty positions), runs_from_sound.
  - intros positions tail Hne Hall; rewrite identify_passes_runs_from.
    now apply runs_from_open_end.
Qed.

Lemma identify_passes_maximal_runs_witness :
  let up := position_data (steady_sky 45 180 600) in
  let down := position_data (steady_sky (-5) 180 600) in
  identify_passes [up 0%Z; up 5000000%Z] = [[up 0%Z; up 5000000%Z]] /\
  identify_passes [down 0%Z; down 5000000%Z] = [] /\
  (forall run, In run (identify_passes [down 0%Z; up 5000000%Z]) ->
     run <> []) /\
  exists ps head,
    identify_passes ([down 0%Z] ++ [up 5000000%Z]) =
    ps ++ [head ++ [up 5000000%Z]].
Proof.
  intros up down.
  assert (Hup : forall t, shown (up t))
    by (intros t; unfold shown; cbn; apply gtb_true; lra).
  assert (Hdown : forall t, hidden (down t))
    by (intros t; unfold hidden; cbn; apply gtb_false; lra).
  destruct identify_passes_maximal_runs
    as (_ & _ & _ & Hshown & Hhidden & Hne & Hopen).
  split; [| split; [| split]].
  - apply Hshown; [discriminate | repeat constructor; apply Hup].
  - apply Hhidden; repeat constructor; apply Hdown.
  - apply Hne.
  - apply Hopen; [discriminate | repeat constructor; apply Hup].
Defined.

(** ** The trajectory sampler *)

Lemma timestamp_position_data sky current_time :
  timestamp (position_data sky current_time) = current_time.
Proof.
  unfold position_data.
  destruct (altaz sky (utc current_time)) as [[alt az] distance].
  destruct (latlon_of sky (utc current_time)); reflexivity.
Qed.

Lemma ticks_succ start step n :
  ticks start step (S n) = start :: ticks (start + step) step n.
Proof.
  unfold ticks; cbn [seq map]; f_equal; [lia |].
  rewrite <- seq_shift, map_map.
  apply map_ext; intros k; lia.
Qed.

Lemma ticks_length start step n : length (ticks start step n) = n.
Proof. unfold ticks; now rewrite length_map, length_seq. Qed.


Lemma advance_in_range current_time interval_seconds :
  (0 <= current_time <= datetime_max)%Z ->
  (0 <= current_time + timedelta interval_seconds <= datetime_max)%Z ->
  advance current_time interval_seconds =
  Some (current_time + timedelta interval_seconds)%Z.
Proof.
  unfold advance, timedelta_exists, is_datetime, timedelta, datetime_max.
  intros Hcur Hnext.
  assert (H : (-999999999 <= interval_seconds / 86400 <= 999999999)%Z)
    by (split;
        [apply Z.div_le_lower_bound | apply Z.div_le_upper_bound]; lia).
  replace (-999999999 <=? interval_seconds / 86400)%Z with true
    by (symmetry; apply Z.leb_le; lia).
  replace (interval_seconds / 86400 <=? 999999999)%Z with true
    by (symmetry; apply Z.leb_le; lia).
  replace (0 <=? current_time + interval_seconds * 1000000)%Z with true
    by (symmetry; apply Z.leb_le; lia).
  now replace (current_time + interval_seconds * 1000000 <=?
               315537897599999999)%Z with true
    by (symmetry; apply Z.leb_le; lia).
Qed.


Lemma advance_some current_time interval_seconds next_time :
  advance current_time interval_seconds = Some next_time ->
  next_time = (current_time + timedelta interval_seconds)%Z.
Proof.
  unfold advance.
  destruct (timedelta_exists interval_seconds &&
            is_datetime (current_time + timedelta interval_seconds));
    [| discriminate].
  now intros E; injection E as <-.
Qed.





(** With the interval 0 and a [datetime] to start from, the loop samples
    the same tick for ever. *)
Lemma sampling_loop_stands_still sky stop fuel :
  forall current_time positions,
    (0 <= current_time <= datetime_max)%Z -> (current_time <= stop)%Z ->
    sampling_loop fuel sky current_time stop 0 positions =
    Looping
      (positions ++ map (position_data sky) (ticks current_time 0 fuel)).
Proof.
  induction fuel as [| fuel IH]; intros cur acc Hdt Hcur; cbn [sampling_loop].
  - cbn; now rewrite app_nil_r.
  - replace (cur <=? stop)%Z with true by (symmetry; apply Z.leb_le; lia).
    rewrite advance_in_range by (unfold timedelta; lia).
    replace (cur + timedelta 0)%Z with cur by (unfold timedelta; lia).
    rewrite IH, ticks_succ by assumption.
    replace (cur + 0)%Z with cur by lia.
    now rewrite <- app_assoc.
Qed.









(** ** Per-pass statistics *)

Lemma metrics_above_horizon elevation_deg range_km azimuth_deg :
  0 <= elevation_deg ->
  let total := FSPL_dB range_km 2000 + atm_loss elevation_deg + 3 in
  let snr := 55 + 30 - total + 15 - -110 in
  snr_db (calculate_signal_strength elevation_deg range_km azimuth_deg) =
    Some (round snr 2) /\
  link_quality (calculate_signal_strength elevation_deg range_km azimuth_deg) =
    assess_link_quality LINK_QUALITY_THRESHOLDS snr.
Proof.
  intros H; unfold calculate_signal_strength, FSPL_dB, atm_loss.
  rewrite ltb_false by assumption; cbn.
  replace (2.0 * 1000) with 2000 by lra.
  unfold ltb; destruct (Rlt_dec elevation_deg 10), (Rle_dec 10 elevation_deg);
    try lra; split; reflexivity.
Qed.

Lemma max_from_spec values : forall best,
  Forall (fun v => v <> None) values ->
  exists peak,
    max_from best values = Some peak /\
    (peak = best \/ In (Some peak) values) /\
    best <= peak /\
    (forall v, In (Some v) values -> v <= peak).
Proof.
  induction values as [| [v |] rest IH]; intros best Hall.
  - exists best; cbn; repeat split; [now left | lra | intros v []].
  - inversion Hall as [| ? ? _ Hrest]; subst; cbn [max_from].
    destruct (IH (if gtb v best then v else best) Hrest)
      as (peak & E & Hin & Hbest & Hub).
    exists peak; split; [exact E |].
    unfold gtb, ltb in *; destruct (Rlt_dec best v).
    + split; [destruct Hin as [-> | Hin]; right; [now left | now right] |].
      split; [lra |].
      intros w [Hw | Hw]; [injection Hw as <-; exact Hbest | now apply Hub].
    + split; [destruct Hin as [-> | Hin]; [now left | right; now right] |].
      split; [exact Hbest |].
      intros w [Hw | Hw]; [injection Hw as <-; lra | now apply Hub].
  - inversion Hall; congruence.
Qed.

Lemma max_spec values :
  values <> [] -> Forall (fun v => v <> None) values ->
  exists peak,
    max values = Some peak /\
    In (Some peak) values /\
    (forall v, In (Some v) values -> v <= peak).
Proof.
  destruct values as [| [first |] rest]; intros Hne Hall; [congruence | |].
  - inversion Hall as [| ? ? _ Hrest]; subst; cbn [max].
    destruct (max_from_spec rest first Hrest)
      as (peak & E & Hin & Hfirst & Hub).
    exists peak; split; [exact E |]; split.
    + destruct Hin as [-> | Hin]; [now left | now right].
    + intros w [Hw | Hw]; [injection Hw as <-; exact Hfirst | now apply Hub].
  - inversion Hall; congruence.
Qed.

(** Every sample of a run comes from the input and is visible. *)
Lemma maximal_runs_members l ps :
  maximal_runs l ps ->
  forall run p, In run ps -> In p run -> In p l /\ shown p.
Proof.
  induction 1 as [| pos rest ps Hpos _ IH | run Hne Hall
                  | run pos rest ps Hne Hall Hpos _ IH]; intros r p Hr Hp.
  - destruct Hr.
  - destruct (IH r p Hr Hp); split; [now right | assumption].
  - destruct Hr as [<- | []]; split; [assumption |].
    now apply (proj1 (Forall_forall _ _) Hall).
  - destruct Hr as [<- | Hr].
    + split; [apply in_or_app; now left |].
      now apply (proj1 (Forall_forall _ _) Hall).
    + destruct (IH r p Hr Hp); split; [| assumption].
      apply in_or_app; right; now right.
Qed.

Lemma position_data_sampled sky current_time :
  sampled (position_data sky current_time).
Proof.
  destruct (altaz sky (utc current_time)) as [[alt az] distance] eqn:E.
  destruct (position_data_fields sky current_time alt az distance E)
    as (_ & _ & Hvis & Hsig).
  unfold sampled; rewrite Hvis, Hsig; intros H.
  assert (Halt : 0 <= alt).
  { unfold gtb, ltb in H; destruct (Rlt_dec 0 alt); [lra | discriminate]. }
  now destruct (calculate_above_horizon alt distance az Halt) as (_ & Hs & _).
Qed.

Lemma sampling_loop_sampled sky stop interval_seconds fuel :
  forall current_time positions result,
    Forall sampled positions ->
    sampling_loop fuel sky current_time stop interval_seconds positions =
      Returned result ->
    Forall sampled result.
Proof.
  induction fuel as [| fuel IH]; intros cur acc result Hacc E;
    cbn [sampling_loop] in E; [discriminate |].
  destruct (cur <=? stop)%Z.
  - destruct (advance cur interval_seconds); [| discriminate].
    apply IH in E; [exact E |].
    apply Forall_app; split; [exact Hacc |].
    repeat constructor; apply position_data_sampled.
  - now injection E as <-.
Qed.

Lemma pass_details_of_peak pass_data peak :
  peak_snr pass_data = Some peak ->
  pass_details pass_data =
  Some ((Z.of_nat (length pass_data) * 5)%Z,
        assess_link_quality LINK_QUALITY_THRESHOLDS peak).
Proof. intros E; unfold pass_details; now rewrite E. Qed.

(** A sample at 4.892 degrees and 50000 km: its SNR is 9.996 dB, which the
    link budget rates Poor and stores as 10.0 dB. *)
Lemma grazing_sample_metrics :
  let m := calculate_signal_strength 4.892 50000 180 in
  snr_db m = Some 10 /\ link_quality m = Poor.
Proof.
  assert (Efspl : FSPL_dB 50000 2000 = 192.45).
  { unfold FSPL_dB.
    assert (E : log10 50000 + log10 2000 = INR 8)
      by (apply log10_product; simpl; lra).
    simpl in E; lra. }
  assert (Esnr :
    55 + 30 - (FSPL_dB 50000 2000 + atm_loss 4.892 + 3) + 15 - -110 = 9.996).
  { rewrite Efspl; unfold atm_loss; destruct (Rle_dec 10 4.892); lra. }
  destruct (metrics_above_horizon 4.892 50000 180) as [Hsnr Hq]; [lra |].
  cbv zeta in *; rewrite Esnr in Hsnr, Hq; split.
  - rewrite Hsnr; f_equal; unfold round.
    rewrite (round_half_even_up _ 1000) by (simpl; lra).
    simpl; lra.
  - rewrite Hq, assess_default; settle_thresholds; reflexivity.
Qed.

Lemma pass_has_peak positions pass_data :
  Forall sampled positions ->
  In pass_data (identify_passes positions) ->
  exists peak,
    peak_snr pass_data = Some peak /\
    In (Some peak) (snr_values pass_data) /\
    (forall v, In (Some v) (snr_values pass_data) -> v <= peak).
Proof.
  intros Hsampled Hin.
  pose proof (proj1 (runs_from_sound positions)) as Hruns.
  rewrite <- identify_passes_runs_from in Hruns.
  apply max_spec.
  - pose proof (maximal_runs_nonempty _ _ Hruns _ Hin) as Hne.
    unfold snr_values; destruct pass_data; [congruence | discriminate].
  - unfold snr_values; apply Forall_map, Forall_forall; intros p Hp.
    destruct (maximal_runs_members _ _ Hruns _ _ Hin Hp) as [Hpos Hshown].
    exact (proj1 (Forall_forall _ _) Hsampled p Hpos Hshown).
Qed.

(** C8, as the code has it. For every pass the segmenter cuts out of the
    sampler's output, the report gives the duration [len(pass) x 5] seconds,
    the 5 being written in the report code and not read from the sampling
    interval, and a "link quality at peak" obtained from the largest stored
    SNR of the pass through the thresholds of the link budget; it depends on
    the stored SNR values alone, and can differ from the stored quality of
    every sample of the pass. *)
Theorem pass_duration_and_peak_quality :
  (forall fuel sky start_time end_time interval_seconds positions pass_data,
     generate_satellite_passes fuel sky start_time end_time interval_seconds =
       Returned positions ->
     In pass_data (identify_passes positions) ->
     exists peak,
       In (Some peak) (snr_values pass_data) /\
       (forall v, In (Some v) (snr_values pass_data) -> v <= peak) /\
       pass_details pass_data =
         Some ((Z.of_nat (length pass_data) * 5)%Z,
               assess_link_quality LINK_QUALITY_THRESHOLDS peak)) /\
  (forall pass_data pass_data',
     snr_values pass_data = snr_values pass_data' ->
     pass_details pass_data = pass_details pass_data') /\
  (exists sky positions pass_data,
     generate_satellite_passes 2 sky 0 0 5 = Returned positions /\
     identify_passes positions = [pass_data] /\
     (forall p, In p pass_data ->
        link_quality (signal_metrics p) = Poor) /\
     pass_details pass_data = Some (5%Z, Fair)).
Proof.
  split; [| split].
  - intros fuel sky start_time end_time interval_seconds positions pass_data
      Hgen Hin.
    assert (Hsampled : Forall sampled positions).
    { apply (sampling_loop_sampled _ _ _ _ _ _ _ (Forall_nil _) Hgen). }
    destruct (pass_has_peak positions pass_data Hsampled Hin)
      as (peak & Epeak & Hmem & Hub).
    exists peak; split; [exact Hmem |]; split; [exact Hub |].
    now apply pass_details_of_peak.
  - intros pass_data pass_data' E.
    unfold pass_details, peak_snr, duration_secs; fold (snr_values pass_data).
    fold (snr_values pass_data'); rewrite E.
    replace (length pass_data) with (length (snr_values pass_data))
      by apply length_map.
    replace (length pass_data') with (length (snr_values pass_data'))
      by apply length_map.
    now rewrite E.
  - set (sky := steady_sky 4.892 180 50000).
    destruct grazing_sample_metrics as [Hsnr Hq]; cbv zeta in Hsnr, Hq.
    exists sky, [position_data sky 0], [position_data sky 0].
    split; [reflexivity |].
    assert (Hshown : shown (position_data sky 0))
      by (unfold shown; cbn; apply gtb_true; lra).
    split; [| split].
    + rewrite identify_passes_runs_from.
      apply (runs_from_shown [position_data sky 0] []);
        [now repeat constructor | discriminate].
    + intros p [<- | []]; exact Hq.
    + unfold pass_details, peak_snr; cbn [map position_data sky steady_sky
        altaz latlon_of height_of signal_metrics max].
      rewrite Hsnr; cbn [max_from].
      unfold quality_at_peak; settle_thresholds; reflexivity.
Qed.

Lemma pass_duration_and_peak_quality_witness :
  let sky := steady_sky 45 180 600 in
  exists peak,
    pass_details [position_data sky 0; position_data sky 5000000] =
    Some (10%Z, assess_link_quality LINK_QUALITY_THRESHOLDS peak).
Proof.
  intros sky.
  destruct pass_duration_and_peak_quality as [Hpass _].
  destruct (Hpass 3%nat sky 0%Z 5000000%Z 5%Z
              [position_data sky 0; position_data sky 5000000]
              [position_data sky 0; position_data sky 5000000])
    as (peak & _ & _ & E).
  - reflexivity.
  - rewrite identify_passes_runs_from.
    rewrite (runs_from_shown [position_data sky 0; position_data sky 5000000]
               []); [now left | | discriminate].
    repeat constructor; unfold shown; cbn; apply gtb_true; lra.
  - exists peak; exact E.
Defined.

(** C8, as stated, fails: three samples taken 10 s apart form one pass, for
    which the report gives 15 s and not 3 x 10 s. *)
Lemma duration_ignores_sampling_interval :
  let sky := steady_sky 45 180 600 in
  let positions := map (position_data sky) [0; 10000000; 20000000]%Z in
  generate_satellite_passes 4 sky 0 (timedelta 20) 10 = Returned positions /\
  identify_passes positions = [positions] /\
  duration_secs positions = 15%Z /\
  duration_secs positions <> (Z.of_nat (length positions) * 10)%Z.
Proof.
  intros sky positions; split; [reflexivity |]; split; [| split].
  - rewrite identify_passes_runs_from.
    apply (runs_from_shown positions []); [| discriminate].
    repeat constructor; unfold shown; cbn; apply gtb_true; lra.
  - reflexivity.
  - discriminate.
Qed.

(** * Further properties of the code *)

(** ** Rounding keeps the order *)

Lemma round_half_even_near x :
  x - 1 / 2 <= IZR (round_half_even x) <= x + 1 / 2.
Proof.
  unfold round_half_even.
  destruct (base_Int_part x) as [Hlo Hhi].
  destruct (Rlt_dec (x - IZR (Int_part x)) (1 / 2)); [lra |].
  destruct (Rlt_dec (1 / 2) (x - IZR (Int_part x))).
  - rewrite plus_IZR; lra.
  - destruct (Z.even (Int_part x)); [lra | rewrite plus_IZR; lra].
Qed.

Lemma round_half_even_monotone x y :
  x <= y -> (round_half_even x <= round_half_even y)%Z.
Proof.
  intros Hxy.
  destruct (Req_dec x y) as [-> | Hne]; [lia |].
  destruct (Z_le_gt_dec (round_half_even x) (round_half_even y))
    as [Hle | Hgt]; [exact Hle | exfalso].
  assert (H1 : (round_half_even y + 1 <= round_half_even x)%Z) by lia.
  apply IZR_le in H1; rewrite plus_IZR in H1.
  pose proof (round_half_even_near x); pose proof (round_half_even_near y).
  lra.
Qed.

Lemma pow_10_pos n : 0 < 10 ^ n.
Proof. apply pow_lt; lra. Qed.

Lemma round_monotone x y n : x <= y -> round x n <= round y n.
Proof.
  intros Hxy; unfold round.
  pose proof (pow_10_pos n) as Hp.
  apply Rmult_le_compat_r; [left; now apply Rinv_0_lt_compat |].
  apply IZR_le, round_half_even_monotone.
  now apply Rmult_le_compat_r; [left |].
Qed.

Lemma round_2_exact z : round (IZR z / 100) 2 = IZR z / 100.
Proof.
  unfold round.
  rewrite (round_half_even_down _ z) by (simpl; lra).
  simpl; lra.
Qed.

(** ** The link budget as a function of elevation and range *)

Lemma calculate_closed_form elevation_deg range_km azimuth_deg :
  0 <= elevation_deg ->
  let total := FSPL_dB range_km 2000 + atm_loss elevation_deg + 3 in
  calculate_signal_strength elevation_deg range_km azimuth_deg =
  {| received_power_dbm := Some (round (55 + 30 - total + 15) 2);
     snr_db := Some (round (55 + 30 - total + 15 - -110) 2);
     link_quality :=
       assess_link_quality LINK_QUALITY_THRESHOLDS
         (55 + 30 - total + 15 - -110);
     path_loss_db := Some (round total 2);
     atmospheric_loss_db := Some (round (atm_loss elevation_deg) 2) |}.
Proof.
  intros H; unfold calculate_signal_strength, FSPL_dB, atm_loss.
  rewrite ltb_false by assumption; cbn.
  replace (2.0 * 1000) with 2000 by lra.
  unfold ltb; destruct (Rlt_dec elevation_deg 10), (Rle_dec 10 elevation_deg);
    try lra; reflexivity.
Qed.

Lemma atm_loss_decreasing elevation_deg elevation_deg' :
  elevation_deg <= elevation_deg' ->
  atm_loss elevation_deg' <= atm_loss elevation_deg.
Proof.
  intros H; unfold atm_loss.
  destruct (Rle_dec 10 elevation_deg), (Rle_dec 10 elevation_deg'); lra.
Qed.

Lemma atm_loss_bounds elevation_deg :
  0 <= elevation_deg -> 2 <= atm_loss elevation_deg <= 7.
Proof.
  intros H; unfold atm_loss; destruct (Rle_dec 10 elevation_deg); lra.
Qed.

Lemma log10_increasing x y : 0 < x -> x <= y -> log10 x <= log10 y.
Proof.
  intros Hx Hxy; unfold log10.
  pose proof ln_10_pos as H10.
  apply Rmult_le_compat_r; [left; now apply Rinv_0_lt_compat |].
  destruct (Req_dec x y) as [-> | Hne]; [lra |].
  left; apply ln_increasing; lra.
Qed.

Lemma FSPL_dB_increasing range_km range_km' frequency_MHz :
  0 < range_km -> range_km <= range_km' ->
  FSPL_dB range_km frequency_MHz <= FSPL_dB range_km' frequency_MHz.
Proof.
  intros Hpos Hle; unfold FSPL_dB.
  pose proof (log10_increasing _ _ Hpos Hle); lra.
Qed.

(** The metrics of a smaller total path loss are at least as good. *)
Lemma closed_form_order total total' :
  total' <= total ->
  round (55 + 30 - total + 15) 2 <= round (55 + 30 - total' + 15) 2 /\
  round (55 + 30 - total + 15 - -110) 2 <=
    round (55 + 30 - total' + 15 - -110) 2 /\
  round total' 2 <= round total 2 /\
  (quality_rank
     (assess_link_quality LINK_QUALITY_THRESHOLDS
        (55 + 30 - total + 15 - -110)) <=
   quality_rank
     (assess_link_quality LINK_QUALITY_THRESHOLDS
        (55 + 30 - total' + 15 - -110)))%nat.
Proof.
  intros H; repeat split; try (apply round_monotone; lra).
  apply assess_monotone; lra.
Qed.

(** X1. At a fixed range, raising the elevation from the horizon up never
    worsens the reported metrics: received power, SNR and quality do not
    fall, path loss and atmospheric loss do not rise. *)
Theorem higher_elevation_no_worse :
  forall elevation_deg elevation_deg' range_km azimuth_deg azimuth_deg',
    0 <= elevation_deg -> elevation_deg <= elevation_deg' ->
    let m := calculate_signal_strength elevation_deg range_km azimuth_deg in
    let m' := calculate_signal_strength elevation_deg' range_km azimuth_deg' in
    at_least_as_good m m' /\
    option_le (atmospheric_loss_db m') (atmospheric_loss_db m).
Proof.
  intros el el' rg az az' H0 Hle m m'; subst m m'.
  rewrite !calculate_closed_form by lra; cbv zeta.
  pose proof (atm_loss_decreasing el el' Hle) as Hatm.
  unfold at_least_as_good; cbn.
  destruct (closed_form_order (FSPL_dB rg 2000 + atm_loss el + 3)
              (FSPL_dB rg 2000 + atm_loss el' + 3)) as (Hp & Hs & Hl & Hq);
    [lra |].
  repeat split; try assumption.
  now apply round_monotone.
Qed.

Lemma higher_elevation_no_worse_witness :
  at_least_as_good (calculate_signal_strength 5 600 0)
    (calculate_signal_strength 45 600 90).
Proof.
  apply (higher_elevation_no_worse 5 45 600 0 90); lra.
Defined.

(** X2. At a fixed elevation at or above the horizon, a longer positive
    range never improves the reported metrics. *)
Theorem longer_range_no_better :
  forall elevation_deg range_km range_km' azimuth_deg azimuth_deg',
    0 <= elevation_deg -> 0 < range_km -> range_km <= range_km' ->
    at_least_as_good
      (calculate_signal_strength elevation_deg range_km' azimuth_deg')
      (calculate_signal_strength elevation_deg range_km azimuth_deg).
Proof.
  intros el rg rg' az az' H0 Hpos Hle.
  rewrite !calculate_closed_form by lra; cbv zeta.
  pose proof (FSPL_dB_increasing rg rg' 2000 Hpos Hle) as Hfspl.
  unfold at_least_as_good; cbn.
  destruct (closed_form_order (FSPL_dB rg' 2000 + atm_loss el + 3)
              (FSPL_dB rg 2000 + atm_loss el + 3)) as (Hp & Hs & Hl & Hq);
    [lra |].
  repeat split; assumption.
Qed.

Lemma longer_range_no_better_witness :
  at_least_as_good (calculate_signal_strength 30 1200 0)
    (calculate_signal_strength 30 600 0).
Proof.
  apply (longer_range_no_better 30 600 1200 0 0); lra.
Defined.

(** X3. From 10 degrees of elevation up the metrics depend on the range
    alone. *)
Theorem elevation_irrelevant_from_10_degrees :
  forall elevation_deg elevation_deg' range_km azimuth_deg azimuth_deg',
    10 <= elevation_deg -> 10 <= elevation_deg' ->
    calculate_signal_strength elevation_deg range_km azimuth_deg =
    calculate_signal_strength elevation_deg' range_km azimuth_deg'.
Proof.
  intros el el' rg az az' H H'.
  rewrite !calculate_closed_form by lra; cbv zeta.
  assert (E : atm_loss el = 2.0)
    by (unfold atm_loss; destruct (Rle_dec 10 el); lra).
  assert (E' : atm_loss el' = 2.0)
    by (unfold atm_loss; destruct (Rle_dec 10 el'); lra).
  now rewrite E, E'.
Qed.

Lemma elevation_irrelevant_from_10_degrees_witness :
  calculate_signal_strength 10 600 0 = calculate_signal_strength 90 600 180.
Proof.
  apply elevation_irrelevant_from_10_degrees; lra.
Defined.

(** X4. From the horizon up the reported atmospheric loss lies between 2 and
    7 dB: it is 7 dB at 0 degrees and 2 dB from 10 degrees up. *)
Theorem atmospheric_loss_between_2_and_7 :
  forall elevation_deg range_km azimuth_deg,
    0 <= elevation_deg ->
    exists loss,
      atmospheric_loss_db
        (calculate_signal_strength elevation_deg range_km azimuth_deg) =
        Some loss /\
      2 <= loss <= 7 /\
      (elevation_deg = 0 -> loss = 7) /\
      (10 <= elevation_deg -> loss = 2).
Proof.
  intros el rg az H.
  rewrite atmospheric_loss_above_horizon by assumption.
  exists (round (atm_loss el) 2); split; [reflexivity |].
  pose proof (atm_loss_bounds el H) as [Hlo Hhi].
  assert (E2 : round 2 2 = 2)
    by (replace 2 with (IZR 200 / 100) by lra; apply round_2_exact).
  assert (E7 : round 7 2 = 7)
    by (replace 7 with (IZR 700 / 100) by lra; apply round_2_exact).
  split; [| split].
  - pose proof (round_monotone 2 (atm_loss el) 2 Hlo).
    pose proof (round_monotone (atm_loss el) 7 2 Hhi).
    lra.
  - intros ->; unfold atm_loss; destruct (Rle_dec 10 0); [lra |].
    replace (2.0 + (10 - 0) * 0.5) with 7 by lra; exact E7.
  - intros H10; unfold atm_loss; destruct (Rle_dec 10 el); [| lra].
    replace 2.0 with 2 by lra; exact E2.
Qed.

Lemma atmospheric_loss_between_2_and_7_witness :
  exists loss,
    atmospheric_loss_db (calculate_signal_strength 0 600 0) = Some loss /\
    loss = 7.
Proof.
  destruct (atmospheric_loss_between_2_and_7 0 600 0) as (loss & E & _ & H & _);
    [lra |].
  exists loss; split; [exact E | apply H; reflexivity].
Defined.

(** ** The segmenter on a list cut at a hidden sample *)

Lemma runs_from_cut l : forall run pos rest,
  hidden pos ->
  runs_from run (l ++ pos :: rest) = runs_from run l ++ runs_from [] rest.
Proof.
  induction l as [| q l IH]; intros run pos rest Hpos.
  - cbn [app runs_from]; rewrite Hpos; destruct run; reflexivity.
  - cbn [app runs_from]; destruct (visible q).
    + now apply IH.
    + rewrite (IH [] pos rest Hpos); destruct run; reflexivity.
Qed.

(** X6. A hidden sample cuts the segmentation in two: the passes of a list
    are the passes before a hidden sample followed by the passes after it;
    in particular hidden samples at either end change nothing. *)
Theorem identify_passes_cut_at_hidden :
  forall before pos after,
    visible pos = false ->
    identify_passes (before ++ pos :: after) =
    identify_passes before ++ identify_passes after.
Proof.
  intros before pos after Hpos.
  rewrite !identify_passes_runs_from.
  now apply runs_from_cut.
Qed.

Lemma identify_passes_cut_at_hidden_witness :
  let up := position_data (steady_sky 45 180 600) in
  let down := position_data (steady_sky (-5) 180 600) in
  identify_passes ([up 0%Z] ++ down 5000000%Z :: [up 10000000%Z]) =
  identify_passes [up 0%Z] ++ identify_passes [up 10000000%Z].
Proof.
  intros up down; apply identify_passes_cut_at_hidden.
  cbn; apply gtb_false; lra.
Defined.

(** ** The sampler and the sub-second part of its window *)

Lemma utc_offset current_time offset :
  (current_time mod 1000000 = 0)%Z -> (0 <= offset < 1000000)%Z ->
  utc (current_time + offset) = utc current_time.
Proof.
  intros Hmod Hoff; unfold utc.
  pose proof (Z.div_mod current_time 1000000 ltac:(lia)) as E.
  rewrite Hmod, Z.add_0_r in E.
  rewrite E at 1.
  rewrite Z.mul_comm, Z.div_add_l, (Z.div_small offset) by lia; lia.
Qed.

Lemma position_data_offset sky current_time offset :
  (current_time mod 1000000 = 0)%Z -> (0 <= offset < 1000000)%Z ->
  position_data sky (current_time + offset) =
  shift_timestamp offset (position_data sky current_time).
Proof.
  intros Hmod Hoff; unfold position_data.
  rewrite utc_offset by assumption.
  destruct (altaz sky (utc current_time)) as [[alt az] distance].
  destruct (latlon_of sky (utc current_time)); reflexivity.
Qed.

Lemma is_datetime_offset t offset :
  (t mod 1000000 = 0)%Z -> (0 <= offset < 1000000)%Z ->
  is_datetime (t + offset) = is_datetime t.
Proof.
  intros Hmod Hoff.
  pose proof (Z.div_mod t 1000000 ltac:(lia)) as E.
  rewrite Hmod, Z.add_0_r in E.
  unfold is_datetime, datetime_max.
  destruct (Z.leb_spec 0 (t + offset)), (Z.leb_spec 0 t),
    (Z.leb_spec (t + offset) 315537897599999999),
    (Z.leb_spec t 315537897599999999); try reflexivity; lia.
Qed.

Lemma advance_offset current_time interval_seconds offset :
  (current_time mod 1000000 = 0)%Z -> (0 <= offset < 1000000)%Z ->
  advance (current_time + offset) interval_seconds =
  option_map (fun t => (t + offset)%Z)
    (advance current_time interval_seconds).
Proof.
  intros Hmod Hoff; unfold advance.
  replace (current_time + offset + timedelta interval_seconds)%Z
    with (current_time + timedelta interval_seconds + offset)%Z by lia.
  rewrite is_datetime_offset; [| | assumption].
  - now destruct (timedelta_exists interval_seconds &&
                  is_datetime (current_time + timedelta interval_seconds)).
  - unfold timedelta.
    rewrite Z.add_mod, Hmod, Z.mod_mul by lia; reflexivity.
Qed.

Lemma sampling_loop_offset sky stop interval_seconds offset fuel :
  forall current_time positions,
    (current_time mod 1000000 = 0)%Z -> (0 <= offset < 1000000)%Z ->
    sampling_loop fuel sky (current_time + offset) (stop + offset)
      interval_seconds (map (shift_timestamp offset) positions) =
    map_run (map (shift_timestamp offset))
      (sampling_loop fuel sky current_time stop interval_seconds positions).
Proof.
  induction fuel as [| fuel IH]; intros cur acc Hmod Hoff;
    cbn [sampling_loop]; [reflexivity |].
  replace (cur + offset <=? stop + offset)%Z with (cur <=? stop)%Z
    by (destruct (Z.leb_spec cur stop);
        symmetry; [apply Z.leb_le | apply Z.leb_gt]; lia).
  destruct (cur <=? stop)%Z; [| reflexivity].
  assert (Eacc : map (shift_timestamp offset) acc ++
                 [position_data sky (cur + offset)] =
                 map (shift_timestamp offset)
                   (acc ++ [position_data sky cur])).
  { rewrite map_app; cbn [map].
    now rewrite position_data_offset by assumption. }
  rewrite Eacc, advance_offset by assumption.
  destruct (advance cur interval_seconds) as [next |] eqn:E; cbn [option_map];
    [| reflexivity].
  apply IH; [| assumption].
  apply advance_some in E; subst next; unfold timedelta.
  rewrite Z.add_mod, Hmod, Z.mod_mul by lia; reflexivity.
Qed.

(** X7. Only the whole second of a tick reaches Skyfield: when a window that
    starts on a whole second is moved by less than a second, the sampler
    does the same, returning or not, and its samples differ from those of
    the unmoved window in their timestamps alone. *)
Theorem sampler_ignores_fraction_of_second :
  forall sky start_time end_time interval_seconds offset fuel,
    (start_time mod 1000000 = 0)%Z -> (0 <= offset < 1000000)%Z ->
    generate_satellite_passes fuel sky (start_time + offset)
      (end_time + offset) interval_seconds =
    map_run (map (shift_timestamp offset))
      (generate_satellite_passes fuel sky start_time end_time
         interval_seconds).
Proof.
  intros sky start_time end_time interval_seconds offset fuel Hmod Hoff.
  unfold generate_satellite_passes.
  now rewrite <- sampling_loop_offset.
Qed.

Lemma sampler_ignores_fraction_of_second_witness :
  generate_satellite_passes 3 (steady_sky 45 180 600) (0 + 250000)
    (5000000 + 250000) 5 =
  map_run (map (shift_timestamp 250000))
    (generate_satellite_passes 3 (steady_sky 45 180 600) 0 5000000 5).
Proof.
  apply sampler_ignores_fraction_of_second; [reflexivity | lia].
Defined.

(** ** The sampler on adjacent windows *)



Lemma ticks_app start step a b :
  ticks start step (a + b) =
  ticks start step a ++ ticks (start + Z.of_nat a * step) step b.
Proof.
  revert start; induction a as [| a IH]; intros start.
  - cbn [Nat.add]; unfold ticks at 2; cbn; f_equal; lia.
  - cbn [Nat.add]; rewrite !ticks_succ, IH; cbn [app]; do 3 f_equal; lia.
Qed.



(** ** The time window of a pass *)

Lemma maximal_runs_contiguous l ps :
  maximal_runs l ps ->
  forall run, In run ps -> exists before after, l = before ++ run ++ after.
Proof.
  induction 1 as [| pos rest ps Hpos _ IH | run Hne Hall
                  | run pos rest ps Hne Hall Hpos _ IH]; intros r Hr.
  - destruct Hr.
  - destruct (IH r Hr) as (before & after & ->).
    now exists (pos :: before), after.
  - destruct Hr as [<- | []]; exists [], []; now rewrite app_nil_r.
  - destruct Hr as [<- | Hr].
    + now exists [], (pos :: rest).
    + destruct (IH r Hr) as (before & after & ->).
      exists (run ++ pos :: before), after.
      now rewrite <- app_assoc.
Qed.

Lemma sampling_loop_returned_ticks sky stop interval_seconds fuel :
  forall current_time positions result,
    sampling_loop fuel sky current_time stop interval_seconds positions =
      Returned result ->
    exists n,
      result =
      positions ++
      map (position_data sky)
        (ticks current_time (timedelta interval_seconds) n).
Proof.
  induction fuel as [| fuel IH]; intros cur acc result E;
    cbn [sampling_loop] in E; [discriminate |].
  destruct (cur <=? stop)%Z.
  - destruct (advance cur interval_seconds) as [next |] eqn:Enext;
      [| discriminate].
    apply advance_some in Enext; subst next.
    destruct (IH _ _ _ E) as (n & ->).
    exists (S n); now rewrite ticks_succ, <- app_assoc.
  - injection E as <-; exists O; cbn; now rewrite app_nil_r.
Qed.

Lemma timestamps_of_samples sky l :
  map timestamp (map (position_data sky) l) = l.
Proof.
  rewrite map_map; induction l as [| t l IH]; cbn;
    [reflexivity | now rewrite timestamp_position_data, IH].
Qed.

Lemma app_same_length {A : Type} (a a' b b' : list A) :
  length a = length a' -> a ++ b = a' ++ b' -> a = a' /\ b = b'.
Proof.
  revert a'; induction a as [| x a IH]; intros [| x' a'] Hlen E;
    try discriminate; [now split |].
  injection E as -> E; injection Hlen as Hlen.
  destruct (IH a' Hlen E) as [-> ->]; now split.
Qed.

(** A block of [ticks] is itself a list of ticks. *)
Lemma ticks_block start step n (before run after : list Z) :
  ticks start step n = before ++ run ++ after ->
  run = ticks (start + Z.of_nat (length before) * step) step (length run).
Proof.
  intros E.
  assert (Hn : n = (length before + (length run + length after))%nat).
  { rewrite <- (ticks_length start step n), E, !length_app; reflexivity. }
  rewrite Hn, !ticks_app in E.
  apply app_same_length in E; [| now rewrite ticks_length].
  destruct E as [_ E].
  apply app_same_length in E; [| now rewrite ticks_length].
  now destruct E as [E _].
Qed.

Lemma ticks_first_last start step n d :
  hd d (ticks start step (S n)) = start /\
  last (ticks start step (S n)) d = (start + Z.of_nat n * step)%Z.
Proof.
  split; [rewrite ticks_succ; reflexivity |].
  replace (S n) with (n + 1)%nat by lia.
  rewrite ticks_app.
  replace (ticks (start + Z.of_nat n * step) step 1)
    with [(start + Z.of_nat n * step)%Z]
    by (unfold ticks; cbn; f_equal; lia).
  apply last_last.
Qed.

Lemma timestamp_last (run : list Position) first :
  timestamp (last run first) = last (map timestamp run) (timestamp first).
Proof.
  induction run as [| p run IH]; [reflexivity |].
  destruct run; [reflexivity | exact IH].
Qed.

Lemma pass_is_block_of_ticks sky fuel start_time end_time interval_seconds
    positions run :
  generate_satellite_passes fuel sky start_time end_time interval_seconds =
    Returned positions ->
  In run (identify_passes positions) ->
  exists k,
    map timestamp run =
    ticks (start_time + Z.of_nat k * timedelta interval_seconds)
      (timedelta interval_seconds) (length run).
Proof.
  intros Hgen Hin.
  destruct (sampling_loop_returned_ticks _ _ _ _ _ _ _ Hgen) as (n & E).
  cbn [app] in E.
  pose proof (proj1 (runs_from_sound positions)) as Hruns.
  rewrite <- identify_passes_runs_from in Hruns.
  destruct (maximal_runs_contiguous _ _ Hruns _ Hin) as (before & after & Ecut).
  exists (length before).
  assert (Ets : ticks start_time (timedelta interval_seconds) n =
                map timestamp before ++ map timestamp run ++
                map timestamp after).
  { rewrite <- !map_app, <- Ecut, E; symmetry; apply timestamps_of_samples. }
  apply ticks_block in Ets.
  now rewrite !length_map in Ets.
Qed.

(** X9. The samples of a pass cut out of the sampler's output lie on
    consecutive ticks, so the window the report prints for the pass spans
    [(len(pass) - 1)] intervals; at the 5-second interval the reported
    duration [len(pass) x 5] exceeds the printed window by 5 seconds. *)
Theorem pass_window_one_interval_short :
  forall sky fuel start_time end_time interval_seconds positions run,
    generate_satellite_passes fuel sky start_time end_time interval_seconds =
      Returned positions ->
    In run (identify_passes positions) ->
    exists k window_start window_end,
      map timestamp run =
        ticks (start_time + Z.of_nat k * timedelta interval_seconds)
          (timedelta interval_seconds) (length run) /\
      pass_window run = Some (window_start, window_end) /\
      (window_end - window_start =
       (Z.of_nat (length run) - 1) * timedelta interval_seconds)%Z /\
      (interval_seconds = 5%Z ->
       timedelta (duration_secs run) =
       window_end - window_start + timedelta 5)%Z.
Proof.
  intros sky fuel start_time end_time iv positions run Hgen Hin.
  destruct (pass_is_block_of_ticks _ _ _ _ _ _ _ Hgen Hin) as (k & Ets).
  pose proof (proj1 (runs_from_sound positions)) as Hruns.
  rewrite <- identify_passes_runs_from in Hruns.
  pose proof (maximal_runs_nonempty _ _ Hruns _ Hin) as Hne.
  destruct run as [| first rest]; [congruence |].
  exists k, (utc_to_cst (timestamp first)),
    (utc_to_cst (timestamp (last (first :: rest) first))).
  split; [exact Ets |]; split; [reflexivity |].
  rewrite timestamp_last, Ets.
  cbn [length] in *.
  destruct (ticks_first_last
              (start_time + Z.of_nat k * timedelta iv) (timedelta iv)
              (length rest) (timestamp first)) as [Hfirst Hlast].
  rewrite Hlast.
  assert (Efirst : timestamp first =
                   (start_time + Z.of_nat k * timedelta iv)%Z).
  { rewrite ticks_succ in Ets; cbn [map] in Ets; now injection Ets. }
  rewrite Efirst; unfold utc_to_cst, duration_secs, timedelta; cbn [length].
  split; [lia | intros ->; lia].
Qed.

Lemma pass_window_one_interval_short_witness :
  let sky := steady_sky 45 180 600 in
  exists k window_start window_end,
    map timestamp [position_data sky 0; position_data sky 5000000] =
      ticks (0 + Z.of_nat k * timedelta 5) (timedelta 5) 2 /\
    pass_window [position_data sky 0; position_data sky 5000000] =
      Some (window_start, window_end) /\
    (window_end - window_start = (Z.of_nat 2 - 1) * timedelta 5)%Z /\
    (5%Z = 5%Z ->
     timedelta (duration_secs [position_data sky 0; position_data sky 5000000])
     = window_end - window_start + timedelta 5)%Z.
Proof.
  intros sky.
  apply (pass_window_one_interval_short sky 3%nat 0%Z 5000000%Z 5%Z
           [position_data sky 0; position_data sky 5000000]).
  - reflexivity.
  - rewrite identify_passes_runs_from.
    rewrite (runs_from_shown [position_data sky 0; position_data sky 5000000]
               []); [now left | | discriminate].
    repeat constructor; unfold shown; cbn; apply gtb_true; lra.
Defined.

(** ** The statistics of the reports *)

Lemma identify_passes_concat positions :
  concat (identify_passes positions) = filter visible positions.
Proof.
  rewrite identify_passes_runs_from.
  apply maximal_runs_concat, runs_from_sound.
Qed.

Lemma total_duration_secs_concat passes :
  total_duration_secs passes = (Z.of_nat (length (concat passes)) * 5)%Z.
Proof.
  unfold total_duration_secs; induction passes as [| run passes IH];
    [reflexivity |].
  cbn [map fold_right concat]; rewrite IH, length_app.
  unfold duration_secs; lia.
Qed.

(** X10. The two reports agree on the visible time: the total visible time
    of the trajectory report, in minutes, is the sum of the durations the
    pass report gives to the passes of the same samples, in seconds, divided
    by 60. *)
Theorem visible_time_is_sum_of_pass_durations :
  forall np_mean positions,
    total_visible_time (statistics np_mean positions) =
    IZR (total_duration_secs (identify_passes positions)) / 60.
Proof.
  intros np_mean positions.
  rewrite total_duration_secs_concat, identify_passes_concat.
  unfold statistics.
  destruct (filter visible positions) as [| p rest] eqn:E.
  - cbn; lra.
  - cbn [total_visible_time].
    rewrite mult_IZR, <- INR_IZR_INZ; lra.
Qed.

Lemma position_data_visible sky current_time :
  visible (position_data sky current_time) = true ->
  all_populated (signal_metrics (position_data sky current_time)) /\
  0 <= elevation_deg (position_data sky current_time).
Proof.
  destruct (altaz sky (utc current_time)) as [[alt az] distance] eqn:E.
  destruct (position_data_fields sky current_time alt az distance E)
    as (_ & Hel & Hvis & Hsig).
  cbv zeta in Hel, Hvis, Hsig; rewrite Hel, Hvis, Hsig; intros H.
  assert (Halt : 0 < alt).
  { unfold gtb, ltb in H; destruct (Rlt_dec 0 alt); [lra | discriminate]. }
  split; [apply calculate_above_horizon; lra |].
  replace 0 with (round (IZR 0 / 100) 2) at 1
    by (rewrite round_2_exact; lra).
  apply round_monotone; lra.
Qed.

Lemma sampler_members sky fuel start_time end_time interval_seconds positions :
  generate_satellite_passes fuel sky start_time end_time interval_seconds =
    Returned positions ->
  forall p, In p positions -> exists t, p = position_data sky t.
Proof.
  intros Hgen p Hp.
  destruct (sampling_loop_returned_ticks _ _ _ _ _ _ _ Hgen) as (n & E).
  cbn [app] in E; rewrite E in Hp.
  apply in_map_iff in Hp; destruct Hp as (t & <- & _); now exists t.
Qed.

Lemma sampler_visible_members sky fuel start_time end_time interval_seconds
    positions :
  generate_satellite_passes fuel sky start_time end_time interval_seconds =
    Returned positions ->
  forall p, In p positions -> visible p = true ->
    all_populated (signal_metrics p) /\ 0 <= elevation_deg p.
Proof.
  intros Hgen p Hp Hvis.
  destruct (sampler_members _ _ _ _ _ _ Hgen p Hp) as (t & ->).
  now apply position_data_visible.
Qed.

Lemma floats_populated values : Forall (fun v => v <> None) (floats values).
Proof. apply Forall_map, Forall_forall; intros; discriminate. Qed.

Lemma in_floats v values : In (Some v) (floats values) <-> In v values.
Proof.
  unfold floats; rewrite in_map_iff; split.
  - intros (w & E & Hw); now injection E as <-.
  - intros H; now exists v.
Qed.

(** X11. A report section cannot be built for a satellite without a visible
    sample: formatting its maximum elevation raises [TypeError].  For the
    output of the sampler with a visible sample, the section is built, the
    maximum elevation shown is not negative, and the note reads "(below
    horizon)" exactly when that maximum is shown as 0. *)
Theorem section_needs_a_visible_sample :
  (forall np_mean positions,
     filter visible positions = [] ->
     section_statistics np_mean positions = inl TypeError) /\
  (forall np_mean sky fuel start_time end_time interval_seconds positions,
     generate_satellite_passes fuel sky start_time end_time interval_seconds =
       Returned positions ->
     filter visible positions <> [] ->
     exists shown,
       section_statistics np_mean positions = inr shown /\
       total_data_points shown = length positions /\
       0 <= shown_max_elevation shown /\
       (horizon_note shown = BelowHorizon <->
        shown_max_elevation shown = 0)).
Proof.
  split.
  - intros np_mean positions E; unfold section_statistics, statistics.
    now rewrite E.
  - intros np_mean sky fuel start_time end_time iv positions Hgen Hne.
    unfold section_statistics, statistics.
    destruct (filter visible positions) as [| p rest] eqn:E; [congruence |].
    cbn [max_elevation_visible avg_elevation_visible total_visible_time
         avg_signal_power max_signal_power].
    destruct (max_spec (floats (map elevation_deg (p :: rest))))
      as (peak & Epeak & Hmem & _);
      [discriminate | apply floats_populated |].
    rewrite Epeak.
    assert (Hpeak : 0 <= peak).
    { apply in_floats, in_map_iff in Hmem; destruct Hmem as (q & <- & Hq).
      rewrite <- E in Hq; apply filter_In in Hq; destruct Hq as [Hq Hvis].
      now apply (sampler_visible_members _ _ _ _ _ _ Hgen q Hq). }
    eexists; split; [reflexivity |]; cbn.
    split; [reflexivity |]; split; [exact Hpeak |].
    unfold gtb, ltb; destruct (Req_dec_T peak 0), (Rlt_dec 0 peak); cbn;
      split; intros H; try reflexivity; try discriminate; lra.
Qed.

Lemma section_needs_a_visible_sample_witness :
  section_statistics (hd 0)
    [position_data (steady_sky (-5) 180 600) 0] = inl TypeError /\
  exists shown,
    section_statistics (hd 0) [position_data (steady_sky 45 180 600) 0] =
    inr shown.
Proof.
  destruct section_needs_a_visible_sample as [Hnone Hsome].
  split.
  - apply Hnone; cbn; rewrite gtb_false by lra; reflexivity.
  - destruct (Hsome (hd 0) (steady_sky 45 180 600) 2%nat 0%Z 0%Z 5%Z
                [position_data (steady_sky 45 180 600) 0])
      as (shown & E & _); [reflexivity | | now exists shown].
    cbn; rewrite gtb_true by lra; discriminate.
Defined.

Lemma min_from_spec values : forall best,
  Forall (fun v => v <> None) values ->
  exists low,
    min_from best values = Some low /\
    (low = best \/ In (Some low) values) /\
    low <= best /\
    (forall v, In (Some v) values -> low <= v).
Proof.
  induction values as [| [v |] rest IH]; intros best Hall.
  - exists best; cbn; repeat split; [now left | lra | intros v []].
  - inversion Hall as [| ? ? _ Hrest]; subst; cbn [min_from].
    destruct (IH (if ltb v best then v else best) Hrest)
      as (low & E & Hin & Hbest & Hlb).
    exists low; split; [exact E |].
    unfold ltb in *; destruct (Rlt_dec v best).
    + split; [destruct Hin as [-> | Hin]; right; [now left | now right] |].
      split; [lra |].
      intros w [Hw | Hw]; [injection Hw as <-; exact Hbest | now apply Hlb].
    + split; [destruct Hin as [-> | Hin]; [now left | right; now right] |].
      split; [exact Hbest |].
      intros w [Hw | Hw]; [injection Hw as <-; lra | now apply Hlb].
  - inversion Hall; congruence.
Qed.

Lemma min_spec values :
  values <> [] -> Forall (fun v => v <> None) values ->
  exists low,
    min values = Some low /\
    In (Some low) values /\
    (forall v, In (Some v) values -> low <= v).
Proof.
  destruct values as [| [first |] rest]; intros Hne Hall; [congruence | |].
  - inversion Hall as [| ? ? _ Hrest]; subst; cbn [min].
    destruct (min_from_spec rest first Hrest)
      as (low & E & Hin & Hfirst & Hlb).
    exists low; split; [exact E |]; split.
    + destruct Hin as [-> | Hin]; [now left | now right].
    + intros w [Hw | Hw]; [injection Hw as <-; exact Hfirst | now apply Hlb].
  - inversion Hall; congruence.
Qed.

Lemma all_floats_populated values :
  Forall (fun v => v <> None) values ->
  exists vs, all_floats values = Some vs /\ values = floats vs.
Proof.
  induction 1 as [| [v |] rest Hv _ (vs & E & ->)]; cbn.
  - now exists [].
  - exists (v :: vs); now rewrite E.
  - congruence.
Qed.

(** Minimum, mean and maximum of a non-empty list without [None]: none of
    them raises, and the two extremes bound every value. *)
Lemma min_mean_max np_mean values :
  values <> [] -> Forall (fun v => v <> None) values ->
  exists low avg high,
    min values = Some low /\ mean_of np_mean values = Some avg /\
    max values = Some high /\
    In (Some low) values /\ In (Some high) values /\
    (forall v, In (Some v) values -> low <= v <= high).
Proof.
  intros Hne Hall.
  destruct (min_spec values Hne Hall) as (low & Emin & Hlow & Hlb).
  destruct (max_spec values Hne Hall) as (high & Emax & Hhigh & Hub).
  destruct (all_floats_populated values Hall) as (vs & Evs & Eval).
  exists low, (np_mean vs), high; unfold mean_of; rewrite Evs.
  split; [exact Emin |]; split; [reflexivity |]; split; [exact Emax |].
  split; [exact Hlow |]; split; [exact Hhigh |].
  intros v Hv; split; [now apply Hlb | now apply Hub].
Qed.

Lemma pass_members sky fuel start_time end_time interval_seconds positions
    run :
  generate_satellite_passes fuel sky start_time end_time interval_seconds =
    Returned positions ->
  In run (identify_passes positions) ->
  run <> [] /\
  forall p, In p run ->
    all_populated (signal_metrics p) /\ 0 <= elevation_deg p.
Proof.
  intros Hgen Hin.
  pose proof (proj1 (runs_from_sound positions)) as Hruns.
  rewrite <- identify_passes_runs_from in Hruns.
  split; [exact (maximal_runs_nonempty _ _ Hruns _ Hin) |].
  intros p Hp.
  destruct (maximal_runs_members _ _ Hruns _ _ Hin Hp) as [Hpos Hshown].
  exact (sampler_visible_members _ _ _ _ _ _ Hgen p Hpos Hshown).
Qed.

(** X12. For every pass cut out of the sampler's output the statistics of
    the detailed section are all computed, none of them raising, whatever
    [np.mean] returns, and the extremes are ordered and bound every sample:
    the stored power of each sample lies between the minimum and the peak
    signal, its stored SNR does not exceed the peak SNR, its elevation lies
    between the minimum and the maximum elevation, its range between the
    closest and the farthest, and the minimum elevation is not negative. *)
Theorem pass_statistics_ordered :
  forall np_mean sky fuel start_time end_time interval_seconds positions run,
    generate_satellite_passes fuel sky start_time end_time interval_seconds =
      Returned positions ->
    In run (identify_passes positions) ->
    exists st,
      pass_statistics np_mean run = Some st /\
      min_signal st <= max_signal st /\
      0 <= min_elevation st <= max_elevation st /\
      min_range st <= max_range st /\
      forall p,
        In p run ->
        (exists power snr,
           received_power_dbm (signal_metrics p) = Some power /\
           snr_db (signal_metrics p) = Some snr /\
           min_signal st <= power <= max_signal st /\
           snr <= peak_snr_db st) /\
        min_elevation st <= elevation_deg p <= max_elevation st /\
        min_range st <= range_km p <= max_range st.
Proof.
  intros np_mean sky fuel start_time end_time iv positions run Hgen Hin.
  destruct (pass_members _ _ _ _ _ _ _ Hgen Hin) as [Hne Hmem].
  assert (Hmap : forall (A : Type) (f : Position -> A), map f run <> []).
  { intros A f; destruct run; [congruence | discriminate]. }
  destruct (min_mean_max np_mean (floats (map elevation_deg run)))
    as (elo & eavg & ehi & Eemin & _ & Eemax & Helo & _ & Hebound);
    [unfold floats; rewrite map_map; apply Hmap | apply floats_populated |].
  destruct (min_mean_max np_mean (floats (map range_km run)))
    as (rlo & ravg & rhi & Ermin & _ & Ermax & Hrlo & _ & Hrbound);
    [unfold floats; rewrite map_map; apply Hmap | apply floats_populated |].
  destruct (min_mean_max np_mean
              (map (fun p => received_power_dbm (signal_metrics p)) run))
    as (plo & pavg & phi & Epmin & Epavg & Epmax & Hplo & _ & Hpbound);
    [apply Hmap | |].
  { apply Forall_map, Forall_forall; intros p Hp.
    now destruct (Hmem p Hp) as [(Hpow & _) _]. }
  destruct (min_mean_max np_mean (snr_values run))
    as (slo & savg & shi & _ & Esavg & Esmax & _ & _ & Hsbound);
    [apply Hmap | |].
  { apply Forall_map, Forall_forall; intros p Hp.
    now destruct (Hmem p Hp) as [(_ & Hsnr & _) _]. }
  unfold pass_statistics.
  rewrite Eemax, Eemin, Epmax, Epmin, Epavg, Ermin, Ermax, Esmax, Esavg.
  eexists; split; [reflexivity |]; cbn.
  assert (H0 : 0 <= elo).
  { apply in_floats, in_map_iff in Helo; destruct Helo as (p & <- & Hp).
    now destruct (Hmem p Hp). }
  pose proof (Hebound elo Helo) as He.
  pose proof (Hrbound rlo Hrlo) as Hr.
  pose proof (Hpbound plo Hplo) as Hp0.
  split; [lra |]; split; [lra |]; split; [lra |].
  intros p Hp.
  destruct (Hmem p Hp) as [(Hpow & Hsnr & _) _].
  destruct (received_power_dbm (signal_metrics p)) as [power |] eqn:Epow;
    [| congruence].
  destruct (snr_db (signal_metrics p)) as [snr |] eqn:Esnr; [| congruence].
  split; [| split].
  - exists power, snr; split; [reflexivity |]; split; [reflexivity |].
    split.
    + apply Hpbound; rewrite <- Epow.
      now apply (in_map (fun p => received_power_dbm (signal_metrics p))).
    + apply Hsbound; rewrite <- Esnr.
      now apply (in_map (fun p => snr_db (signal_metrics p))).
  - apply Hebound, in_floats; now apply in_map.
  - apply Hrbound, in_floats; now apply in_map.
Qed.

Lemma pass_statistics_ordered_witness :
  let sky := steady_sky 45 180 600 in
  exists st,
    pass_statistics (hd 0)
      [position_data sky (december_7_2025 * day);
       position_data sky (december_7_2025 * day + 5000000)] = Some st /\
    min_signal st <= max_signal st.
Proof.
  intros sky.
  destruct (pass_statistics_ordered (hd 0) sky 3%nat
              (december_7_2025 * day)%Z
              (december_7_2025 * day + 5000000)%Z 5%Z
              [position_data sky (december_7_2025 * day);
               position_data sky (december_7_2025 * day + 5000000)]
              [position_data sky (december_7_2025 * day);
               position_data sky (december_7_2025 * day + 5000000)])
    as (st & E & H & _).
  - reflexivity.
  - rewrite identify_passes_runs_from.
    rewrite (runs_from_shown
               [position_data sky (december_7_2025 * day);
                position_data sky (december_7_2025 * day + 5000000)]
               []); [now left | | discriminate].
    repeat constructor; unfold shown; cbn; apply gtb_true; lra.
  - now exists st.
Defined.

(** ** Durations, simulated elements and the TLE lookup as text *)

Module TextFacts.

Import Ascii String Text.
Local Open Scope string_scope.
Local Open Scope Z_scope.

Lemma all_from_spec n : forall z P,
  all_from n z P = true ->
  forall k, z <= k < z + Z.of_nat n -> P k = true.
Proof.
  induction n as [| n IH]; intros z P H k Hk; [lia |].
  cbn [all_from] in H; apply andb_prop in H; destruct H as [Hz Hrest].
  destruct (Z.eq_dec k z) as [-> | Hne]; [exact Hz |].
  apply (IH (z + 1) P Hrest); lia.
Qed.

Lemma length_append s1 s2 :
  length (s1 ++ s2) = (length s1 + length s2)%nat.
Proof. induction s1 as [| c s1 IH]; cbn; [reflexivity | now rewrite IH]. Qed.

Lemma prefix_append s t : prefix s (s ++ t) = true.
Proof.
  induction s as [| c s IH]; cbn; [now destruct t |].
  destruct (ascii_dec c c); [exact IH | congruence].
Qed.

Lemma format_02d_two_digits n :
  0 <= n < 100 -> format_02d n = two_digits n.
Proof.
  intros Hn.
  assert (H : all_from 100 0
                (fun n => (format_02d n =? two_digits n)%string) = true)
    by (vm_compute; reflexivity).
  apply eqb_eq, (all_from_spec _ _ _ H); lia.
Qed.

Lemma format_5d_width n : 0 <= n <= 99999 -> length (format_5d n) = 5%nat.
Proof.
  intros Hn.
  assert (H : all_from (Z.to_nat 100000) 0
                (fun n => (length (format_5d n) =? 5)%nat) = true)
    by (vm_compute; reflexivity).
  apply Nat.eqb_eq, (all_from_spec _ _ _ H); lia.
Qed.

(** X13. A duration from 0 up to 99 min 59 s is printed as five characters:
    the two digits of the minutes, a colon, the two digits of the seconds.
    For a pass of fewer than 1200 samples the duration printed is [len / 12]
    minutes and [5 x (len mod 12)] seconds. *)
Theorem format_duration_mm_ss :
  (forall seconds,
     0 <= seconds < 6000 ->
     format_duration seconds =
       two_digits (seconds / 60) ++ ":" ++ two_digits (seconds mod 60) /\
     length (format_duration seconds) = 5%nat) /\
  (forall pass_data : list Position,
     (List.length pass_data < 1200)%nat ->
     format_duration (duration_secs pass_data) =
       two_digits (Z.of_nat (List.length pass_data) / 12) ++ ":" ++
       two_digits (5 * (Z.of_nat (List.length pass_data) mod 12))).
Proof.
  assert (Hfmt : forall seconds,
             0 <= seconds < 6000 ->
             format_duration seconds =
             two_digits (seconds / 60) ++ ":" ++ two_digits (seconds mod 60)).
  { intros seconds Hs; unfold format_duration.
    pose proof (Z.mod_pos_bound seconds 60 ltac:(lia)) as Hsecs.
    assert (Hmins : 0 <= seconds / 60 < 100)
      by (split; [apply Z.div_pos; lia | apply Z.div_lt_upper_bound; lia]).
    now rewrite !format_02d_two_digits by lia. }
  split.
  - intros seconds Hs; split; [now apply Hfmt |].
    now rewrite Hfmt.
  - intros pass_data Hlen; unfold duration_secs.
    rewrite Hfmt by lia.
    replace (Z.of_nat (List.length pass_data) * 5 / 60)
      with (Z.of_nat (List.length pass_data) / 12)
      by (rewrite <- (Z.div_mul_cancel_r _ 12 5) by lia; f_equal).
    replace (Z.of_nat (List.length pass_data) * 5 mod 60)
      with (5 * (Z.of_nat (List.length pass_data) mod 12))
      by (rewrite <- (Z.mul_mod_distr_l _ 12 5) by lia; f_equal; lia).
    reflexivity.
Qed.

Lemma format_duration_mm_ss_witness :
  format_duration 125 = two_digits (125 / 60) ++ ":" ++ two_digits (125 mod 60).
Proof.
  destruct format_duration_mm_ss as [H _].
  apply (H 125); lia.
Defined.

(** X14. For a catalogue number from 0 to 99999 the two simulated lines
    have the 69 columns of a TLE line, begin with their line number, and the
    name is the one given. *)
Theorem create_simulated_tle_69_columns :
  forall norad_id satellite_name,
    0 <= norad_id <= 99999 ->
    exists line1 line2,
      create_simulated_tle norad_id satellite_name =
        (satellite_name, line1, line2) /\
      length line1 = 69%nat /\ length line2 = 69%nat /\
      prefix "1 " line1 = true /\ prefix "2 " line2 = true.
Proof.
  intros norad_id satellite_name Hid.
  pose proof (format_5d_width norad_id Hid) as Hw.
  unfold create_simulated_tle.
  eexists; eexists; split; [reflexivity |].
  rewrite !length_append, Hw.
  split; [reflexivity |]; split; [reflexivity |].
  split; apply prefix_append.
Qed.

Lemma create_simulated_tle_69_columns_witness :
  exists line1 line2,
    create_simulated_tle 53807 "BLUEWALKER 3" =
      ("BLUEWALKER 3", line1, line2) /\
    length line1 = 69%nat /\ length line2 = 69%nat /\
    prefix "1 " line1 = true /\ prefix "2 " line2 = true.
Proof.
  apply create_simulated_tle_69_columns; lia.
Defined.

Lemma falsy_false line :
  falsy line = false -> exists text, line = Some text /\ text <> "".
Proof.
  destruct line as [[| c text] |]; cbn; try discriminate.
  intros _; exists (String c text); split; [reflexivity | discriminate].
Qed.

Lemma fetch_failed_is_falsy get norad_id :
  fetch_tle_data get norad_id = (None, None, None) ->
  forall sat_name,
    tle_for_satellite get norad_id sat_name =
    let '(name, line1, line2) := create_simulated_tle norad_id sat_name in
    (Some name, Some line1, Some line2).
Proof.
  intros E sat_name; unfold tle_for_satellite; now rewrite E.
Qed.

(** X15. The TLE handed to [EarthSatellite] always has its two lines, and
    neither is empty; whenever the lookup fails, because the first request
    raises or because both requests are answered with a status other than
    200, it is the simulated TLE under the satellite's configured name. *)
Theorem satellite_always_gets_two_lines :
  forall get norad_id sat_name,
    (exists name line1 line2,
       tle_for_satellite get norad_id sat_name =
         (name, Some line1, Some line2) /\
       line1 <> "" /\ line2 <> "") /\
    ((get ("https://celestrak.org/NORAD/elements/gp.php?CATNR=" ++
           str norad_id ++ "&FORMAT=TLE") = Raises \/
      (forall url, exists status_code text,
         get url = Response status_code text /\ status_code <> 200)) ->
     tle_for_satellite get norad_id sat_name =
     let '(name, line1, line2) := create_simulated_tle norad_id sat_name in
     (Some name, Some line1, Some line2)).
Proof.
  intros get norad_id sat_name; split.
  - unfold tle_for_satellite.
    destruct (fetch_tle_data get norad_id) as [[name line1] line2].
    destruct (falsy line1) eqn:E1; [| destruct (falsy line2) eqn:E2]; cbn.
    + eexists; eexists; eexists; split; [reflexivity |].
      split; discriminate.
    + eexists; eexists; eexists; split; [reflexivity |].
      split; discriminate.
    + destruct (falsy_false _ E1) as (t1 & -> & H1).
      destruct (falsy_false _ E2) as (t2 & -> & H2).
      now exists name, t1, t2.
  - intros H; apply fetch_failed_is_falsy; unfold fetch_tle_data.
    destruct H as [-> | H]; [reflexivity |].
    destruct (H ("https://celestrak.org/NORAD/elements/gp.php?CATNR=" ++
                 str norad_id ++ "&FORMAT=TLE"))
      as (status1 & text1 & -> & Hs1).
    apply Z.eqb_neq in Hs1; rewrite Hs1.
    destruct (H "https://celestrak.org/NORAD/elements/gp.php?GROUP=active&FORMAT=TLE")
      as (status2 & text2 & -> & Hs2).
    apply Z.eqb_neq in Hs2; now rewrite Hs2.
Qed.

Lemma satellite_always_gets_two_lines_witness :
  tle_for_satellite (fun _ => Response 404 "Not Found") 53807 "BLUEWALKER 3" =
  let '(name, line1, line2) := create_simulated_tle 53807 "BLUEWALKER 3" in
  (Some name, Some line1, Some line2).
Proof.
  apply (satellite_always_gets_two_lines
           (fun _ => Response 404 "Not Found") 53807 "BLUEWALKER 3").
  right; intros url; exists 404, "Not Found"; split; [reflexivity | lia].
Defined.

Lemma groups_ind (P : list string -> Prop) :
  P [] -> (forall a, P [a]) -> (forall a b, P [a; b]) ->
  (forall a b c rest, P rest -> P (a :: b :: c :: rest)) ->
  forall lines, P lines.
Proof.
  intros H0 H1 H2 H3; fix IH 1.
  intros [| a [| b [| c rest]]]; [exact H0 | apply H1 | apply H2 |].
  apply H3, IH.
Qed.

Lemma length_3k_cons {A : Type} (before : list A) k :
  List.length before = (3 * S k)%nat ->
  exists a b c before',
    before = a :: b :: c :: before' /\ List.length before' = (3 * k)%nat.
Proof.
  destruct before as [| a [| b [| c before']]]; cbn; intros H; try lia.
  exists a, b, c, before'; split; [reflexivity | lia].
Qed.

(** The group of three lines found at index [3 k], with nothing found in
    the groups before it. *)
Lemma scan_groups_found needle : forall lines x y z,
  scan_groups needle lines = Some (x, y, z) ->
  exists k before a b c after,
    lines = (before ++ a :: b :: c :: after)%list /\
    List.length before = (3 * k)%nat /\
    contains needle b = true /\
    (x, y, z) = (strip a, strip b, strip c) /\
    (forall j before' a' b' c' after',
       (j < k)%nat ->
       lines = (before' ++ a' :: b' :: c' :: after')%list ->
       List.length before' = (3 * j)%nat ->
       contains needle b' = false).
Proof.
  intros lines; induction lines as [| a | a b | a b c rest IH] using groups_ind;
    intros x y z E; try discriminate.
  cbn [scan_groups] in E; destruct (contains needle b) eqn:Hb.
  - injection E as <- <- <-.
    exists O, [], a, b, c, rest; repeat split; try assumption.
    intros j; lia.
  - destruct (IH x y z E) as (k & before & a1 & b1 & c1 & after
                              & -> & Hlen & Hc & Exyz & Hfirst).
    exists (S k), (a :: b :: c :: before), a1, b1, c1, after.
    split; [reflexivity |]; split; [cbn; lia |].
    split; [exact Hc |]; split; [exact Exyz |].
    intros [| j] before' a' b' c' after' Hj Elines Hlen'.
    + destruct before'; [| discriminate].
      cbn in Elines; now injection Elines as <- <- <-.
    + destruct (length_3k_cons before' j Hlen')
        as (a2 & b2 & c2 & before2 & -> & Hlen2).
      cbn in Elines; injection Elines as <- <- <- Elines.
      apply (Hfirst j before2 a' b' c' after');
        [lia | exact Elines | exact Hlen2].
Qed.

Lemma scan_groups_first needle k : forall lines before a b c after,
  lines = (before ++ a :: b :: c :: after)%list ->
  List.length before = (3 * k)%nat ->
  contains needle b = true ->
  (forall j before' a' b' c' after',
     (j < k)%nat ->
     lines = (before' ++ a' :: b' :: c' :: after')%list ->
     List.length before' = (3 * j)%nat ->
     contains needle b' = false) ->
  scan_groups needle lines = Some (strip a, strip b, strip c).
Proof.
  induction k as [| k IH]; intros lines before a b c after -> Hlen Hc Hfirst.
  - destruct before; [| discriminate]; cbn; now rewrite Hc.
  - destruct (length_3k_cons before k Hlen)
      as (a0 & b0 & c0 & before0 & -> & Hlen0).
    cbn [app scan_groups].
    rewrite (Hfirst O [] a0 b0 c0 (before0 ++ a :: b :: c :: after)%list);
      [| lia | reflexivity | reflexivity].
    apply (IH _ before0 a b c after); [reflexivity | exact Hlen0 | exact Hc |].
    intros j before' a' b' c' after' Hj E Hlen'.
    apply (Hfirst (S j) (a0 :: b0 :: c0 :: before') a' b' c' after');
      [lia | cbn; now rewrite E | cbn; lia].
Qed.

(** X16. When the request by catalogue number gives nothing usable and the
    catalogue of active satellites is answered with status 200, the lookup
    returns the first group of three lines, counted from the top, whose
    second line contains the decimal digits of the catalogue number anywhere,
    each line stripped: a group is returned exactly when it is that one. *)
Theorem fallback_returns_first_group_containing_id :
  forall get norad_id status_code text catalogue x y z,
    get ("https://celestrak.org/NORAD/elements/gp.php?CATNR=" ++
         str norad_id ++ "&FORMAT=TLE") = Response status_code text ->
    (status_code <> 200 \/ first_three (split_lines (strip text)) = None) ->
    get "https://celestrak.org/NORAD/elements/gp.php?GROUP=active&FORMAT=TLE" =
      Response 200 catalogue ->
    (fetch_tle_data get norad_id = (Some x, Some y, Some z) <->
     exists k before a b c after,
       split_lines (strip catalogue) = (before ++ a :: b :: c :: after)%list /\
       List.length before = (3 * k)%nat /\
       contains (str norad_id) b = true /\
       (x, y, z) = (strip a, strip b, strip c) /\
       (forall j before' a' b' c' after',
          (j < k)%nat ->
          split_lines (strip catalogue) =
            (before' ++ a' :: b' :: c' :: after')%list ->
          List.length before' = (3 * j)%nat ->
          contains (str norad_id) b' = false)).
Proof.
  intros get norad_id status_code text catalogue x y z Hfirst Hbad Hsecond.
  assert (E : fetch_tle_data get norad_id =
              some_triple
                (scan_groups (str norad_id) (split_lines (strip catalogue)))).
  { unfold fetch_tle_data; rewrite Hfirst.
    destruct Hbad as [Hs | Hnone].
    - apply Z.eqb_neq in Hs; rewrite Hs, Hsecond; reflexivity.
    - rewrite Hnone; destruct (status_code =? 200); now rewrite Hsecond. }
  rewrite E; split.
  - destruct (scan_groups (str norad_id) (split_lines (strip catalogue)))
      as [[[x' y'] z'] |] eqn:Escan; cbn; [| discriminate].
    intros H; injection H as -> -> ->.
    now apply scan_groups_found.
  - intros (k & before & a & b & c & after & Elines & Hlen & Hc & Exyz & Hno).
    rewrite (scan_groups_first _ k _ before a b c after Elines Hlen Hc Hno).
    injection Exyz as -> -> ->; reflexivity.
Qed.

Lemma fallback_returns_first_group_containing_id_witness :
  fetch_tle_data
    (fun url =>
       if prefix "https://celestrak.org/NORAD/elements/gp.php?CATNR=" url
       then Response 404 ""
       else Response 200
              ("ISS (ZARYA)" ++ String (ascii_of_nat 10)
                 ("1 25544U 98067A" ++ String (ascii_of_nat 10) "2 25544")))
    5 =
  (Some "ISS (ZARYA)", Some "1 25544U 98067A", Some "2 25544").
Proof.
  apply (fallback_returns_first_group_containing_id _ 5 404 ""
           ("ISS (ZARYA)" ++ String (ascii_of_nat 10)
              ("1 25544U 98067A" ++ String (ascii_of_nat 10) "2 25544"))).
  - reflexivity.
  - left; lia.
  - reflexivity.
  - exists O, [], "ISS (ZARYA)", "1 25544U 98067A", "2 25544", [].
    split; [reflexivity |]; split; [reflexivity |].
    split; [reflexivity |]; split; [reflexivity |].
    intros j; lia.
Defined.

End TextFacts.

(** ** One run of the trajectory report *)










Lemma command_line_window start_day end_day :
  (start_day <= end_day)%Z ->
  tick_count (start_day * day)
    (end_day * day + timedelta (23 * 3600 + 59 * 60 + 59)) (timedelta 5) =
    Z.to_nat (17280 * (end_day - start_day + 1)) /\
  days (end_day * day + timedelta (23 * 3600 + 59 * 60 + 59) -
        start_day * day) = (end_day - start_day)%Z /\
  days (end_day * day - start_day * day) = (end_day - start_day)%Z.
Proof.
  intros Hle; unfold tick_count, days, day, timedelta.
  split; [| split].
  - replace (end_day * 86400000000 + (23 * 3600 + 59 * 60 + 59) * 1000000 -
             start_day * 86400000000)%Z
      with (((end_day - start_day) * 17280 + 17279) * (5 * 1000000) +
            4000000)%Z by lia.
    rewrite Z.div_add_l, Z.div_small by lia; f_equal; lia.
  - replace (end_day * 86400000000 + (23 * 3600 + 59 * 60 + 59) * 1000000 -
             start_day * 86400000000)%Z
      with ((end_day - start_day) * 86400000000 + 86399000000)%Z by lia.
    rewrite Z.div_add_l, Z.div_small by lia; lia.
  - replace (end_day * 86400000000 - start_day * 86400000000)%Z
      with ((end_day - start_day) * 86400000000)%Z by lia.
    now rewrite Z.div_mul by lia.
Qed.


Lemma trajectory_main_valid np_mean fuel satellites start_day end_day :
  (start_day <= end_day)%Z ->
  trajectory_main np_mean fuel satellites (Some start_day) (Some end_day) =
  match
    satellite_sections np_mean fuel satellites (start_day * day)
      (end_day * day + timedelta (23 * 3600 + 59 * 60 + 59)) []
  with
  | None => None
  | Some (inl _) => Some (Exits 1)
  | Some (inr data) =>
      Some (Completes
              {| all_satellite_data := data;
                 duration_days := (end_day - start_day + 1)%Z |})
  end.
Proof.
  intros Hle; unfold trajectory_main, generate_trajectory_report.
  replace (end_day * day + timedelta (23 * 3600 + 59 * 60 + 59) <?
           start_day * day)%Z with false
    by (symmetry; apply Z.ltb_ge; unfold day, timedelta; lia).
  destruct (command_line_window start_day end_day Hle) as (_ & Edays & _).
  rewrite Edays.
  destruct (satellite_sections _ _ _ _ _ _) as [[e | data] |]; reflexivity.
Qed.






(** X19. The pipeline command line and the trajectory command line accept
    the same pairs of days, those with [start <= end], and the number of
    days the pipeline prints, [(end_date - start_date).days + 1], is the
    [duration_days] of the trajectory report for the same arguments. *)
Theorem pipeline_and_trajectory_agree_on_dates :
  forall start_day end_day,
    ((end_day < start_day)%Z ->
     validate_dates (Some start_day) (Some end_day) = Exits 1 /\
     forall np_mean fuel satellites,
       trajectory_main np_mean fuel satellites (Some start_day)
         (Some end_day) = Some (Exits 1)) /\
    ((start_day <= end_day)%Z ->
     exists start_date end_date,
       validate_dates (Some start_day) (Some end_day) =
         Completes (start_date, end_date) /\
       (days (end_date - start_date) + 1 = end_day - start_day + 1)%Z /\
       forall np_mean fuel satellites report,
         trajectory_main np_mean fuel satellites (Some start_day)
           (Some end_day) = Some (Completes report) ->
         duration_days report = (days (end_date - start_date) + 1)%Z).
Proof.
  intros start_day end_day; split.
  - intros Hlt; split.
    + unfold validate_dates.
      now replace (end_day * day <? start_day * day)%Z with true
        by (symmetry; apply Z.ltb_lt; unfold day; lia).
    + intros np_mean fuel satellites; unfold trajectory_main.
      now replace (end_day * day + timedelta (23 * 3600 + 59 * 60 + 59) <?
                   start_day * day)%Z with true
        by (symmetry; apply Z.ltb_lt; unfold day, timedelta; lia).
  - intros Hle.
    destruct (command_line_window start_day end_day Hle) as (_ & _ & Edays).
    exists (start_day * day)%Z, (end_day * day)%Z.
    split; [| split].
    + unfold validate_dates.
      now replace (end_day * day <? start_day * day)%Z with false
        by (symmetry; apply Z.ltb_ge; unfold day; lia).
    + now rewrite Edays.
    + intros np_mean fuel satellites report.
      rewrite trajectory_main_valid, Edays by assumption.
      destruct (satellite_sections _ _ _ _ _ _) as [[e | data] |];
        try discriminate.
      intros E; injection E as <-; reflexivity.
Qed.

Lemma pipeline_and_trajectory_agree_on_dates_witness :
  validate_dates (Some 12%Z) (Some 7%Z) = Exits 1 /\
  exists start_date end_date,
    validate_dates (Some 7%Z) (Some 12%Z) = Completes (start_date, end_date) /\
    (days (end_date - start_date) + 1 = 12 - 7 + 1)%Z.
Proof.
  destruct (pipeline_and_trajectory_agree_on_dates 12 7) as [Hrev _].
  destruct (pipeline_and_trajectory_agree_on_dates 7 12) as [_ Hok].
  split; [apply Hrev; lia |].
  destruct Hok as (start_date & end_date & E & Hdays & _); [lia |].
  now exists start_date, end_date.
Defined.

(** ** The quality tiers at low-Earth-orbit ranges *)

Lemma FSPL_dB_within_5000_km range_km :
  0 < range_km <= 5000 -> FSPL_dB range_km 2000 <= 172.45.
Proof.
  intros [Hpos Hle]; unfold FSPL_dB.
  pose proof (log10_increasing range_km 5000 Hpos Hle) as Hlog.
  assert (E : log10 5000 + log10 2000 = INR 7)
    by (apply log10_product; simpl; lra).
  simpl in E; lra.
Qed.

(** X5. With the constants of the configuration, every sample at or above
    the horizon and within 5000 km is rated Excellent, with a stored SNR of
    at least 27.55 dB: at such ranges the lower tiers are never reached. *)
Theorem always_excellent_within_5000_km :
  forall elevation_deg range_km azimuth_deg,
    0 <= elevation_deg -> 0 < range_km <= 5000 ->
    let m := calculate_signal_strength elevation_deg range_km azimuth_deg in
    link_quality m = Excellent /\
    exists snr, snr_db m = Some snr /\ 27.55 <= snr.
Proof.
  intros el rg az Hel Hrg m; subst m.
  rewrite calculate_closed_form by assumption; cbv zeta; cbn.
  pose proof (FSPL_dB_within_5000_km rg Hrg) as Hfspl.
  pose proof (atm_loss_bounds el Hel) as [_ Hatm].
  split.
  - rewrite assess_default, geb_true by lra; reflexivity.
  - eexists; split; [reflexivity |].
    replace 27.55 with (round (IZR 2755 / 100) 2)
      by (rewrite round_2_exact; lra).
    apply round_monotone; lra.
Qed.

Lemma always_excellent_within_5000_km_witness :
  link_quality (calculate_signal_strength 0 3000 0) = Excellent.
Proof.
  apply (always_excellent_within_5000_km 0 3000 0); lra.
Defined.
